(** * The Python 2 to 3.9 update script (main.py): model and properties

    main.py is a single orchestration module.  It asks an interpreter for
    its version, lists the installed dependencies, asks a marker evaluator
    whether each one is compatible, previews the rewrite of every [.py]
    file, and after a confirmation read from standard input copies the
    source tree and rewrites the copy.

    The module is embedded as a state-and-exception monad over an explicit
    process state (file system, console, standard input, log records and
    the chronological list of calls made to the outside).  What lies
    outside the module is a [World]: the exit status and output of each
    command, the effect of the rewrite tool in write mode, and the marker
    evaluator.  Scope of the model:
    - text is a [string] whose characters are the code points 0..255;
      decoding captured output is the identity;
    - a command is spawned when its working directory is a directory, and
      then runs to completion with an exit status;
    - a path is a key of the file system: distinct keys name disjoint
      locations (as the two hard-coded sibling directories are);
    - only the rewrite tool in write mode changes the file system, and only
      below the directory it is given;
    - [main] runs as the entry point calls it: the module-level logger that
      [dry_run_2to3] uses is the logger it is passed. *)

From Stdlib Require Import String Ascii List NArith Lia.
From stdpp Require Import gmap strings list fin_maps.

Set Warnings "-register-all".
Open Scope string_scope.
Open Scope list_scope.

(** ** Text primitives of the Python runtime *)

Module Text.

(** [str.isspace] on one character (code points below 256). *)
Definition isspace (c : ascii) : bool :=
  let n := N_of_ascii c in
  ((9 <=? n) && (n <=? 13) || (28 <=? n) && (n <=? 32)
   || (n =? 133) || (n =? 160))%N.

(** [str.lower] on one character (code points below 256). *)
Definition lower_char (c : ascii) : ascii :=
  let n := N_of_ascii c in
  if ((65 <=? n) && (n <=? 90)
      || (192 <=? n) && (n <=? 222) && negb (n =? 215))%N
  then ascii_of_N (n + 32) else c.

Fixpoint lower (s : string) : string :=
  match s with
  | EmptyString => EmptyString
  | String c s' => String (lower_char c) (lower s')
  end.

Fixpoint lstrip (s : string) : string :=
  match s with
  | EmptyString => EmptyString
  | String c s' => if isspace c then lstrip s' else s
  end.

Fixpoint rstrip (s : string) : string :=
  match s with
  | EmptyString => EmptyString
  | String c s' =>
      match rstrip s' with
      | EmptyString => if isspace c then EmptyString else String c EmptyString
      | r => String c r
      end
  end.

(** [s.strip()] *)
Definition strip (s : string) : string := rstrip (lstrip s).

(** [s.startswith(p)] *)
Definition startswith (s p : string) : bool := String.prefix p s.

Fixpoint drop (n : nat) (s : string) : string :=
  match n, s with
  | S n', String _ s' => drop n' s'
  | _, _ => s
  end.

(** [s.endswith(p)] *)
Definition endswith (s p : string) : bool :=
  (String.length p <=? String.length s)%nat
  && String.eqb (drop (String.length s - String.length p) s) p.

(** [os.path.join(a, b)] of posixpath. *)
Definition join (a b : string) : string :=
  if startswith b "/" then b
  else if String.eqb a "" || endswith a "/" then a +:+ b
  else a +:+ "/" +:+ b.

Fixpoint concat (l : list string) : string :=
  match l with
  | [] => EmptyString
  | s :: l' => s +:+ concat l'
  end.

(** Decimal rendering of an exit status, as [%d] does. *)
Definition digit_char (n : N) : ascii := ascii_of_N (48 + n).

Fixpoint decimal_fuel (fuel : nat) (n : N) (acc : string) : string :=
  match fuel with
  | O => acc
  | S f =>
      let acc' := String (digit_char (n mod 10)) acc in
      if (n <? 10)%N then acc' else decimal_fuel f (n / 10) acc'
  end.

Definition decimal (n : N) : string :=
  decimal_fuel (S (N.to_nat (N.log2 n))) n EmptyString.

End Text.

(** ** The fragment of [re] that the two patterns use *)

Module Re.

Inductive regex :=
| Lit (s : string)                 (* literal characters *)
| Plus (cls : ascii -> bool)       (* [class]+, greedy *)
| Seq (r1 r2 : regex)
| Group (r : regex).               (* ( ... ), groups are not nested *)

Definition digit (c : ascii) : bool :=
  let n := N_of_ascii c in ((48 <=? n) && (n <=? 57))%N.

Definition alpha (c : ascii) : bool :=
  let n := N_of_ascii c in
  ((65 <=? n) && (n <=? 90) || (97 <=? n) && (n <=? 122))%N.

Definition is_char (x c : ascii) : bool := Ascii.eqb x c.

(** Greedy repetition with backtracking: the longest run is tried first,
    then shorter ones, never the empty one. *)
Fixpoint plus_greedy {X} (cls : ascii -> bool) (s : string)
    (k : string -> option X) : option X :=
  match s with
  | String c s' =>
      if cls c then
        match plus_greedy cls s' k with
        | Some x => Some x
        | None => k s'
        end
      else None
  | EmptyString => None
  end.

(** The text matched between [s] and its suffix [rest]. *)
Definition consumed (s rest : string) : string :=
  substring 0 (String.length s - String.length rest) s.

(** Backtracking matcher anchored at the head of [s]; [caps] collects the
    groups closed so far and [k] is the rest of the pattern. *)
Fixpoint rmatch {X} (r : regex) (s : string) (caps : list string)
    (k : string -> list string -> option X) : option X :=
  match r with
  | Lit l =>
      if String.prefix l s then k (Text.drop (String.length l) s) caps
      else None
  | Plus cls => plus_greedy cls s (fun s' => k s' caps)
  | Seq r1 r2 => rmatch r1 s caps (fun s' caps' => rmatch r2 s' caps' k)
  | Group r' =>
      rmatch r' s caps (fun s' caps' => k s' (caps' ++ [consumed s s']))
  end.

Definition match_at (r : regex) (s : string) : option (string * list string) :=
  rmatch r s [] (fun rest caps => Some (rest, caps)).

(** [re.search(r, s)]: the leftmost position with a match; [None] when
    there is none.  The result is the list of groups. *)
Fixpoint search (r : regex) (s : string) : option (list string) :=
  match match_at r s with
  | Some (_, caps) => Some caps
  | None =>
      match s with
      | EmptyString => None
      | String _ s' => search r s'
      end
  end.

(** [re.findall(r, s)]: non-overlapping matches from left to right.
    [skip] counts the characters of the last match still to step over. *)
Fixpoint findall_from (r : regex) (s : string) (skip : nat)
    : list (list string) :=
  match skip with
  | S n =>
      match s with
      | String _ s' => findall_from r s' n
      | EmptyString => []
      end
  | O =>
      match match_at r s with
      | Some (rest, caps) =>
          caps ::
          match s with
          | String _ s' =>
              findall_from r s' (String.length s - String.length rest - 1)
          | EmptyString => []
          end
      | None =>
          match s with
          | String _ s' => findall_from r s' 0
          | EmptyString => []
          end
      end
  end.

Definition findall (r : regex) (s : string) : list (list string) :=
  findall_from r s 0.

End Re.

(** r"Python (\d+\.\d+\.\d+)" *)
Definition version_pattern : Re.regex :=
  Re.Seq (Re.Lit "Python ")
    (Re.Group
       (Re.Seq (Re.Plus Re.digit)
          (Re.Seq (Re.Lit ".")
             (Re.Seq (Re.Plus Re.digit)
                (Re.Seq (Re.Lit ".") (Re.Plus Re.digit)))))).

Definition name_char (c : ascii) : bool :=
  Re.alpha c || Re.digit c || Re.is_char "_" c || Re.is_char "-" c.

Definition version_char (c : ascii) : bool :=
  Re.digit c || Re.is_char "." c.

(** r'([a-zA-Z0-9_-]+)==([0-9.]+)' *)
Definition dependency_pattern : Re.regex :=
  Re.Seq (Re.Group (Re.Plus name_char))
    (Re.Seq (Re.Lit "==") (Re.Group (Re.Plus version_char))).


(** ** Values, exceptions and results *)

(** What the marker evaluator may hand back. *)
Inductive pyvalue :=
| PyBool (b : bool)
| PyNone
| PyInt (z : Z)
| PyStr (s : string).

(** Truth value of an object, as [not x] and [if x] take it. *)
Definition truthy (v : pyvalue) : bool :=
  match v with
  | PyBool b => b
  | PyNone => false
  | PyInt z => negb (z =? 0)%Z
  | PyStr s => negb (String.eqb s "")
  end.

(** The exception classes that occur; all derive from [Exception]. *)
Inductive exn :=
| CalledProcessError (cmd : list string) (returncode : N) (output : string)
| RuntimeError (msg : string)
| AttributeError (msg : string)
| FileNotFoundError (path : string)
| NotADirectoryError (path : string)
| FileExistsError (path : string)
| IsADirectoryError (path : string)
| EOFError
| OtherError (msg : string).

Inductive result (A : Type) :=
| Ok (a : A)
| Raise (e : exn).
Arguments Ok {A} a.
Arguments Raise {A} e.

Definition is_CalledProcessError (e : exn) : bool :=
  match e with CalledProcessError _ _ _ => true | _ => false end.

Definition is_RuntimeError (e : exn) : bool :=
  match e with RuntimeError _ => true | _ => false end.

(** [except Exception]: every class of [exn] derives from [Exception].
    [KeyboardInterrupt] and [SystemExit], which do not, are not in [exn]:
    a run that is interrupted is not a run of this model. *)
Definition is_Exception (e : exn) : bool := true.

(** [e.output] of a [CalledProcessError]. *)
Definition exn_output (e : exn) : string :=
  match e with CalledProcessError _ _ out => out | _ => "" end.

Definition nl : string := String (ascii_of_N 10) EmptyString.

(** [repr] of a string without quotes, backslashes or control characters. *)
Definition repr (s : string) : string := "'" +:+ s +:+ "'".

Fixpoint repr_items (l : list string) : string :=
  match l with
  | [] => ""
  | [x] => repr x
  | x :: l' => repr x +:+ ", " +:+ repr_items l'
  end.

Definition repr_list (l : list string) : string := "[" +:+ repr_items l +:+ "]".

(** [str(e)] *)
Definition str_exn (e : exn) : string :=
  match e with
  | CalledProcessError cmd rc _ =>
      "Command '" +:+ repr_list cmd +:+ "' returned non-zero exit status "
      +:+ Text.decimal rc +:+ "."
  | RuntimeError msg => msg
  | AttributeError msg => msg
  | FileNotFoundError p => "[Errno 2] No such file or directory: " +:+ repr p
  | NotADirectoryError p => "[Errno 20] Not a directory: " +:+ repr p
  | FileExistsError p => "[Errno 17] File exists: " +:+ repr p
  | IsADirectoryError p => "[Errno 21] Is a directory: " +:+ repr p
  | EOFError => "EOF when reading a line"
  | OtherError msg => msg
  end.

(** ** The file system *)

Inductive node :=
| File (data : string)
| Dir (entries : list (string * node)).

Definition is_dir (n : node) : bool :=
  match n with Dir _ => true | File _ => false end.

(** Names of the sub-directories and of the other entries of a listing, in
    listing order: the second and third component of what [os.walk] yields. *)
Definition dirnames (es : list (string * node)) : list string :=
  map fst (List.filter (fun e => is_dir (snd e)) es).

Definition filenames (es : list (string * node)) : list string :=
  map fst (List.filter (fun e => negb (is_dir (snd e))) es).

(** [os.walk(top)], top-down: the directory itself, then each sub-directory
    in listing order.  Walking something that is not a directory yields
    nothing. *)
Fixpoint walk (top : string) (n : node)
    : list (string * list string * list string) :=
  match n with
  | File _ => []
  | Dir es =>
      (top, dirnames es, filenames es) ::
      (fix below (l : list (string * node)) :=
         match l with
         | [] => []
         | (name, child) :: l' => walk (Text.join top name) child ++ below l'
         end) es
  end.

(** ** Process state, outside world and the monad *)

Definition environment := list (string * string).

Inductive event :=
| Spawn (argv : list string) (cwd : option string)
| Copytree (src dst : string)
| MarkerEval (env : environment) (req : string).

Inductive level := INFO | ERROR.

Record state := State {
  fs : gmap string node;
  stdin : list string;
  console : list string;
  logging_configured : bool;
  records : list (level * string);
  calls : list event
}.

Record process := Process { returncode : N; output : string }.

Record World := {
  exec : list string -> option string -> gmap string node -> process;
  rewrite : node -> node;
  default_environment : environment;
  interpret : environment -> string -> result pyvalue
}.

Definition M (A : Type) : Type := state -> result A * state.

Definition ret {A} (a : A) : M A := fun s => (Ok a, s).

Definition raise {A} (e : exn) : M A := fun s => (Raise e, s).

Definition bind {A B} (m : M A) (k : A -> M B) : M B :=
  fun s =>
    match m s with
    | (Ok a, s') => k a s'
    | (Raise e, s') => (Raise e, s')
    end.

(** [try: m  except <class> as e: h e] *)
Definition try_except {A} (m : M A) (handles : exn -> bool) (h : exn -> M A)
    : M A :=
  fun s =>
    match m s with
    | (Ok a, s') => (Ok a, s')
    | (Raise e, s') => if handles e then h e s' else (Raise e, s')
    end.

Declare Scope monad_scope.
Delimit Scope monad_scope with monad.
Notation "x <-- m ;; k" := (bind m (fun x => k))
  (at level 100, m at next level, right associativity) : monad_scope.
Notation "m >> k" := (bind m (fun _ => k))
  (at level 100, right associativity) : monad_scope.
Open Scope monad_scope.

(** [for x in l: acc = body acc x] *)
Fixpoint foldM {A B} (body : B -> A -> M B) (acc : B) (l : list A) : M B :=
  match l with
  | [] => ret acc
  | x :: l' => acc' <-- body acc x ;; foldM body acc' l'
  end.

(** [for x in l: body x] *)
Fixpoint for_each {A} (body : A -> M unit) (l : list A) : M unit :=
  match l with
  | [] => ret tt
  | x :: l' => body x >> for_each body l'
  end.

Definition set_fs (f : gmap string node) (s : state) : state :=
  State f (stdin s) (console s) (logging_configured s) (records s) (calls s).

Definition add_call (e : event) (s : state) : state :=
  State (fs s) (stdin s) (console s) (logging_configured s) (records s)
        (calls s ++ [e]).

Definition add_record (l : level) (msg : string) (s : state) : state :=
  State (fs s) (stdin s) (console s) (logging_configured s)
        (records s ++ [(l, msg)]) (calls s).

Definition add_console (msg : string) (s : state) : state :=
  State (fs s) (stdin s) (console s ++ [msg]) (logging_configured s)
        (records s) (calls s).

Definition add_calls (l : list event) (s : state) : state :=
  State (fs s) (stdin s) (console s) (logging_configured s) (records s)
        (calls s ++ l).

Definition add_records (l : list (level * string)) (s : state) : state :=
  State (fs s) (stdin s) (console s) (logging_configured s)
        (records s ++ l) (calls s).

Definition set_stdin (l : list string) (s : state) : state :=
  State (fs s) l (console s) (logging_configured s) (records s) (calls s).

(** ** Runtime primitives the module calls *)

Section Primitives.

Variable w : World.

(** Starting a process in the working directory [cwd]: it has to be a
    directory. *)
Definition spawn_error (cwd : option string) (f : gmap string node)
    : option exn :=
  match cwd with
  | None => None
  | Some d =>
      match f !! d with
      | Some (Dir _) => None
      | Some (File _) => Some (NotADirectoryError d)
      | None => Some (FileNotFoundError d)
      end
  end.

(** [subprocess.check_output(argv, cwd=cwd)]: the captured output, or
    [CalledProcessError] when the exit status is not zero. *)
Definition check_output (argv : list string) (cwd : option string)
    : M string :=
  fun s =>
    match spawn_error cwd (fs s) with
    | Some e => (Raise e, s)
    | None =>
        let p := exec w argv cwd (fs s) in
        let s' := add_call (Spawn argv cwd) s in
        if (returncode p =? 0)%N then (Ok (output p), s')
        else (Raise (CalledProcessError argv (returncode p) (output p)), s')
    end.

(** [subprocess.run(['2to3', '--write', '--nobackups', d])]: the exit
    status is not looked at; the tool rewrites the tree at [d]. *)
Definition run_2to3_write (d : string) : M unit :=
  fun s =>
    (Ok tt,
     set_fs (alter (rewrite w) d (fs s))
       (add_call (Spawn ["2to3"; "--write"; "--nobackups"; d] None) s)).

(** The marker evaluator called on the current default environment. *)
Definition call_interpret (env : environment) (req : string) : M pyvalue :=
  fun s => (interpret w env req, add_call (MarkerEval env req) s).

End Primitives.

(** [shutil.copytree(src, dst)]: the source is listed first, then the
    destination directory is created, which fails when it exists. *)
Definition copytree (src dst : string) : M unit :=
  fun s =>
    let s' := add_call (Copytree src dst) s in
    match fs s !! src with
    | None => (Raise (FileNotFoundError src), s')
    | Some (File _) => (Raise (NotADirectoryError src), s')
    | Some (Dir es) =>
        match fs s !! dst with
        | Some _ => (Raise (FileExistsError dst), s')
        | None => (Ok tt, set_fs (<[dst := Dir es]> (fs s)) s')
        end
    end.

(** [os.path.exists(p)] *)
Definition path_exists (p : string) : M bool :=
  fun s => (Ok (bool_decide (is_Some (fs s !! p))), s).

(** [os.walk(top)], listed at once: nothing changes the tree while the
    caller iterates. *)
Definition os_walk (top : string)
    : M (list (string * list string * list string)) :=
  fun s =>
    (Ok (match fs s !! top with Some n => walk top n | None => [] end), s).

(** [open(p, "w")]: creates or truncates the file; a directory of that
    name makes it fail. *)
Definition open_w (p : string) : M unit :=
  fun s =>
    match fs s !! p with
    | Some (Dir _) => (Raise (IsADirectoryError p), s)
    | _ => (Ok tt, set_fs (<[p := File ""]> (fs s)) s)
    end.

Definition append_text (text : string) (n : node) : node :=
  match n with
  | File d => File (d +:+ text)
  | Dir es => Dir es
  end.

(** [f.write(text)] on the file opened at [p]. *)
Definition file_write (p text : string) : M unit :=
  fun s =>
    (Ok tt,
     set_fs (alter (append_text text) p (fs s)) s).

(** [input(prompt)]: the prompt goes to the console, one line is read. *)
Definition input (prompt : string) : M string :=
  fun s =>
    let s' := add_console prompt s in
    match stdin s with
    | line :: rest => (Ok line, set_stdin rest s')
    | [] => (Raise EOFError, s')
    end.

Definition print (msg : string) : M unit :=
  fun s => (Ok tt, add_console msg s).

Definition logger_info (msg : string) : M unit :=
  fun s => (Ok tt, add_record INFO msg s).

Definition logger_error (msg : string) : M unit :=
  fun s => (Ok tt, add_record ERROR msg s).

(** A [dict] with string keys in insertion order; assigning to a key that
    is present keeps its place. *)
Fixpoint dict_set (k v : string) (d : list (string * string))
    : list (string * string) :=
  match d with
  | [] => [(k, v)]
  | (k', v') :: d' =>
      if String.eqb k k' then (k', v) :: d' else (k', v') :: dict_set k v d'
  end.

(** ** The functions of main.py *)

Definition changes_log : string := "changes_for_update.log".
Definition concerns_log : string := "compatibility-concerns.log".

Definition setup_logging : M unit :=
  fun s =>
    (Ok tt,
     State (fs s) (stdin s) (console s) true (records s) (calls s)).

Section Script.

Variable w : World.

Definition scan_python_version (source_directory : string) : M string :=
  try_except
    (version_info <--
       check_output w ["python"; "--version"] (Some source_directory) ;;
     match Re.search version_pattern version_info with
     | Some (python_version :: _) => ret python_version
     | _ => raise (AttributeError
                     "'NoneType' object has no attribute 'group'")
     end)
    is_CalledProcessError
    (fun e =>
       raise (RuntimeError ("Failed to determine Python version: "
                            +:+ Text.strip (exn_output e)))).

Definition as_pair (groups : list string) : string * string :=
  match groups with
  | [a; b] => (a, b)
  | _ => ("", "")
  end.

Definition scan_dependencies : M (list (string * string)) :=
  dependency_tree <-- check_output w ["pipdeptree"; "-w"] None ;;
  ret (map as_pair (Re.findall dependency_pattern dependency_tree)).

Definition is_compatible (package_name version : string) : M pyvalue :=
  let package_string := package_name +:+ "==" +:+ version in
  let marker := default_environment w in
  call_interpret w marker package_string.

(** The body of the inner loop of [dry_run_2to3] for one file name.  The
    [logger] of the handler is the module global, bound by the block under
    [__main__] before [main] is called; where no preview fails the handler
    is not reached and the binding does not matter. *)
Definition dry_run_file (root : string)
    (proposed_changes : list (string * string)) (file_name : string)
    : M (list (string * string)) :=
  if Text.endswith file_name ".py" then
    let file_path := Text.join root file_name in
    try_except
      (proposed_output <-- check_output w ["2to3"; "-n"; file_path] None ;;
       ret (dict_set file_path proposed_output proposed_changes))
      is_CalledProcessError
      (fun e =>
         logger_error ("Error during dry run for " +:+ file_path +:+ ": "
                       +:+ Text.strip (exn_output e)) >>
         ret proposed_changes)
  else ret proposed_changes.

(** One section of changes_for_update.log for an item of the dict. *)
Definition entry_text (entry : string * string) : string :=
"Changes for " +:+ fst entry +:+ ":" +:+ nl +:+ snd entry +:+ nl.

Definition write_section (entry : string * string) : M unit :=
file_write changes_log (entry_text entry).

Definition dry_run_2to3 (source_directory : string) : M unit :=
  tree <-- os_walk source_directory ;;
  proposed_changes <--
    foldM (fun acc triple =>
             foldM (dry_run_file (fst (fst triple))) acc (snd triple))
          [] tree ;;
  open_w changes_log >>
  for_each write_section proposed_changes.

Definition update_to_python_3_9 (source_directory destination_directory : string)
    : M unit :=
  copytree source_directory destination_directory >>
  run_2to3_write w destination_directory.

(** The loop of [main] that collects the incompatible dependencies. *)
Definition collect_incompatible (acc : list (string * string))
    (dep : string * string) : M (list (string * string)) :=
  verdict <-- is_compatible (fst dep) (snd dep) ;;
  if negb (truthy verdict) then ret (acc ++ [dep]) else ret acc.

Definition write_concern (dep : string * string) : M unit :=
  let line := fst dep +:+ "==" +:+ snd dep in
  file_write concerns_log (line +:+ nl) >>
  logger_info line.

(** What follows the preview inside the innermost [try] of [main]: the
    prompt and the three answers. *)
Definition confirm_and_update (source_directory destination_directory : string)
    : M unit :=
logger_info
  "Dry run completed. Proposed changes logged in 'changes_for_update.log'." >>
line <-- input "Enter 'Y' to proceed with the update or 'N' to cancel: " ;;
let user_input := Text.lower (Text.strip line) in
if String.eqb user_input "y" then
  update_to_python_3_9 source_directory destination_directory >>
  logger_info "Update to Python 3.9 successful."
else if String.eqb user_input "n" then
  logger_info "Update canceled."
else
  logger_error "Invalid input. Update canceled.".

(** The innermost [try] of [main]: preview, prompt, update. *)
Definition preview_and_confirm (source_directory destination_directory : string)
    : M unit :=
try_except
  (dry_run_2to3 source_directory >>
   confirm_and_update source_directory destination_directory)
  is_Exception
  (fun e => logger_error ("Error during update: " +:+ str_exn e)).

(** What the outer [try] of [main] does with the scanned dependencies:
    judge each, then report the incompatible ones or go on to the preview. *)
Definition report_or_preview (source_directory destination_directory : string)
    (dependencies : list (string * string)) : M unit :=
incompatible_dependencies <-- foldM collect_incompatible [] dependencies ;;
match incompatible_dependencies with
| _ :: _ =>
    logger_info
      "The following dependencies are not compatible with Python 3.9:" >>
    open_w concerns_log >>
    for_each write_concern incompatible_dependencies >>
    logger_info
      "Please review the compatibility-concerns.log file for more details."
| [] =>
    logger_info
      "All dependencies are compatible with Python 3.9. Proceeding with the update." >>
    preview_and_confirm source_directory destination_directory
end.

(** The outer [try] of [main]. *)
Definition check_dependencies (source_directory destination_directory : string)
    : M unit :=
try_except
  (dependencies <-- scan_dependencies ;;
   report_or_preview source_directory destination_directory dependencies)
  is_Exception
  (fun e => logger_error ("Error during dependency scan: " +:+ str_exn e)).

Definition main (source_directory destination_directory : string) : M unit :=
  probed <--
    try_except
      (current_python_version <-- scan_python_version source_directory ;;
       logger_info ("Detected Python version: " +:+ current_python_version) >>
       ret (Some current_python_version))
      is_RuntimeError
      (fun e => logger_error (str_exn e) >> ret None) ;;
  match probed with
  | None => ret tt
  | Some current_python_version =>
      if Text.startswith current_python_version "3.9" then
        logger_info "Python version is already 3.9.x. No need to update."
      else check_dependencies source_directory destination_directory
  end.

Definition source_directory : string := "path_to_source_directory".
Definition destination_directory : string := "path_to_destination_directory".

(** The block under [if __name__ == "__main__"]. *)
Definition program : M unit :=
  src_exists <-- path_exists source_directory ;;
  if negb src_exists then
    print ("Source directory '" +:+ source_directory +:+ "' not found.")
  else
    dst_exists <-- path_exists destination_directory ;;
    if negb dst_exists then
      print ("Destination directory '" +:+ destination_directory
             +:+ "' not found.")
    else
      setup_logging >>
      main source_directory destination_directory.

End Script.

(** Exit status of the interpreter: 0 on a normal end, 1 on an exception
    nothing caught. *)
Definition exit_status {A} (r : result A) : N :=
  match r with Ok _ => 0%N | Raise _ => 1%N end.

(** ** What a run is observed by *)

Definition probe_call (src : string) : event :=
  Spawn ["python"; "--version"] (Some src).

Definition scanner_call : event := Spawn ["pipdeptree"; "-w"] None.

Definition dry_run_call (p : string) : event := Spawn ["2to3"; "-n"; p] None.

Definition write_call (d : string) : event :=
  Spawn ["2to3"; "--write"; "--nobackups"; d] None.

Definition is_copy (e : event) : bool :=
  match e with Copytree _ _ => true | _ => false end.

(** The rewrite tool asked to write. *)
Definition is_write_mode (e : event) : bool :=
  match e with
  | Spawn ("2to3" :: "--write" :: _) _ => true
  | _ => false
  end.

(** A call that neither copies a tree nor rewrites files. *)
Definition quiet (e : event) : bool := negb (is_copy e) && negb (is_write_mode e).

(** The file a call previews, when the call is the rewrite tool in
    no-write mode. *)
Definition dry_run_path (e : event) : option string :=
  match e with
  | Spawn ["2to3"; "-n"; p] None => Some p
  | _ => None
  end.

Definition dry_run_paths (t : list event) : list string := omap dry_run_path t.

(** Paths of the regular files below a tree whose name ends in [.py],
    directory by directory from the top. *)
Fixpoint py_files (top : string) (n : node) : list string :=
  match n with
  | File _ => []
  | Dir es =>
      map (Text.join top)
          (List.filter (fun name => Text.endswith name ".py") (filenames es))
      ++ (fix below (l : list (string * node)) :=
            match l with
            | [] => []
            | (name, child) :: l' =>
                py_files (Text.join top name) child ++ below l'
            end) es
  end.

Definition py_files_at (f : gmap string node) (src : string) : list string :=
  match f !! src with
  | Some n => py_files src n
  | None => []
  end.

(** [name==version] *)
Definition requirement (dep : string * string) : string :=
  fst dep +:+ "==" +:+ snd dep.

(** How the orchestrator reads the evaluator's answer for one dependency:
    [Some true] compatible, [Some false] incompatible, [None] when the
    evaluator raises. *)
Definition verdict (w : World) (dep : string * string) : option bool :=
  match interpret w (default_environment w) (requirement dep) with
  | Ok v => Some (truthy v)
  | Raise _ => None
  end.

Definition incompatible (w : World) (dep : string * string) : bool :=
  match verdict w dep with
  | Some false => true
  | _ => false
  end.

Definition marker_call (w : World) (dep : string * string) : event :=
  MarkerEval (default_environment w) (requirement dep).

Definition is_directory_at (f : gmap string node) (p : string) : bool :=
  match f !! p with
  | Some (Dir _) => true
  | _ => false
  end.

(** What the probe detects in a state: the first group of the first match
    in the output of the interpreter, run in the source directory and
    exiting with status zero. *)
Definition detected (w : World) (src : string) (s : state) : option string :=
  let p := exec w ["python"; "--version"] (Some src) (fs s) in
  if is_directory_at (fs s) src && (returncode p =? 0)%N then
    match Re.search version_pattern (output p) with
    | Some (v :: _) => Some v
    | _ => None
    end
  else None.

(** The dependency list the scanner yields in a state, when the
    dependency-tree tool exits with status zero. *)
Definition scanned (w : World) (s : state) : option (list (string * string)) :=
  let p := exec w ["pipdeptree"; "-w"] None (fs s) in
  if (returncode p =? 0)%N then
    Some (map as_pair (Re.findall dependency_pattern (output p)))
  else None.

(** A version string of the form 3.9.x: the characters [3.9.] followed by
    one or more digits. *)
Definition all_digits (s : string) : bool :=
  forallb Re.digit (list_ascii_of_string s).

Definition is_3_9_x (v : string) : bool :=
  Text.startswith v "3.9."
  && negb (String.eqb (Text.drop 4 v) "")
  && all_digits (Text.drop 4 v).

Definition already_message : string :=
  "Python version is already 3.9.x. No need to update.".

(** The run of [main] from [s] ends in AlreadyTarget without a call to the
    dependency scanner: the probe is the only call made and the last
    record is the AlreadyTarget message. *)
Definition already_target (w : World) (src dst : string) (s : state) : Prop :=
  fst (main w src dst s) = Ok tt
  /\ calls (snd (main w src dst s)) = calls s ++ [probe_call src]
  /\ last (records (snd (main w src dst s))) = Some (INFO, already_message).

(** The preview of one file: outcome of the rewrite tool in no-write mode. *)
Definition preview (w : World) (f : gmap string node) (p : string) : process :=
  exec w ["2to3"; "-n"; p] None f.

Definition preview_ok (w : World) (f : gmap string node) (p : string) : bool :=
  (returncode (preview w f p) =? 0)%N.

(** One section of changes_for_update.log. *)
Definition section_text (w : World) (f : gmap string node) (p : string) : string :=
  "Changes for " +:+ p +:+ ":" +:+ nl +:+ output (preview w f p) +:+ nl.

Definition failure_record (w : World) (f : gmap string node) (p : string)
    : level * string :=
  (ERROR, "Error during dry run for " +:+ p +:+ ": "
          +:+ Text.strip (output (preview w f p))).

(** The dict the preview builds from the files it is run on, in order. *)
Definition record_previews (w : World) (f : gmap string node)
    (acc : list (string * string)) (paths : list string)
    : list (string * string) :=
  fold_left
    (fun d p =>
       if preview_ok w f p then dict_set p (output (preview w f p)) d else d)
    paths acc.

(** What the preview writes to changes_for_update.log. *)
Definition changes_text (w : World) (f : gmap string node)
    (paths : list string) : string :=
  Text.concat (map entry_text (record_previews w f [] paths)).

(** The paths whose preview failed, and the records logged for them. *)
Definition failed_previews (w : World) (f : gmap string node)
    (paths : list string) : list string :=
  List.filter (fun p => negb (preview_ok w f p)) paths.

(** The state after the previews of [paths]: one call each, one ERROR
    record for each that failed. *)
Definition previewed (w : World) (paths : list string) (s : state) : state :=
  add_records (map (failure_record w (fs s)) (failed_previews w (fs s) paths))
    (add_calls (map dry_run_call paths) s).

(** The paths the inner loop of the preview runs the tool on, for one
    directory and for a list of walked directories. *)
Definition paths_in (root : string) (files : list string) : list string :=
  map (Text.join root)
      (List.filter (fun name => Text.endswith name ".py") files).

Definition triple_paths (triples : list (string * list string * list string))
    : list string :=
  flat_map (fun t => paths_in (fst (fst t)) (snd t)) triples.

(** The state in which the preview starts when a version [v] was detected
    and every dependency of [deps] was judged compatible. *)
Definition at_preview (w : World) (src v : string)
    (deps : list (string * string)) (s : state) : state :=
  add_record INFO
    "All dependencies are compatible with Python 3.9. Proceeding with the update."
    (add_calls (map (marker_call w) deps)
       (add_call scanner_call
          (add_record INFO ("Detected Python version: " +:+ v)
             (add_call (probe_call src) s)))).

(** The state in which an answer has been read at the prompt. *)
Definition answered (rest : list string) (s : state) : state :=
  set_stdin rest
    (add_console "Enter 'Y' to proceed with the update or 'N' to cancel: "
       (add_record INFO
          "Dry run completed. Proposed changes logged in 'changes_for_update.log'."
          s)).


(** [s'] is reached from [s] by calls that neither copy a tree nor run the
    rewrite tool in write mode, and a directory at [src] is left as it was. *)
Definition quiet_step (src : string) (s s' : state) : Prop :=
  (forall es, fs s !! src = Some (Dir es) -> fs s' !! src = Some (Dir es))
  /\ exists new,
      calls s' = calls s ++ new /\ Forall (fun e => quiet e = true) new.

Definition quiet_run {A} (src : string) (m : M A) : Prop :=
  forall s, quiet_step src s (snd (m s)).

(** [s'] is reached from [s] without a call and without touching files. *)
Definition silent_run {A} (m : M A) : Prop :=
  forall s, fs (snd (m s)) = fs s /\ calls (snd (m s)) = calls s.

(** The calls a migration may end with: none, the copy alone when it
    fails, or the copy followed by the rewrite of the copy. *)
Definition migration_tail (src dst : string) (tail : list event) : Prop :=
  tail = [] \/ tail = [Copytree src dst]
  \/ tail = [Copytree src dst; write_call dst].

(** [s'] is reached from [s] by quiet calls followed by a migration tail,
    and a directory at [src] is left as it was. *)
Definition migration_step (src dst : string) (s s' : state) : Prop :=
  (forall es, fs s !! src = Some (Dir es) -> fs s' !! src = Some (Dir es))
  /\ exists pre tail,
      calls s' = calls s ++ pre ++ tail
      /\ Forall (fun e => quiet e = true) pre
      /\ migration_tail src dst tail.

Definition migration_run {A} (src dst : string) (m : M A) : Prop :=
  forall s, migration_step src dst s (snd (m s)).

(** [s'] is reached from [s] without a run of the rewrite tool in write
    mode, and a directory at [dst] is left as it was. *)
Definition unwritten_step (dst : string) (s s' : state) : Prop :=
  (forall es, fs s !! dst = Some (Dir es) -> fs s' !! dst = Some (Dir es))
  /\ exists new,
      calls s' = calls s ++ new
      /\ Forall (fun e => is_write_mode e = false) new.

(** A computation that, started where [dst] is a directory, makes such a
    step. *)
Definition unwritten_run {A} (dst : string) (m : M A) : Prop :=
  forall s, is_directory_at (fs s) dst = true ->
            unwritten_step dst s (snd (m s)).

(** The check hands back a boolean. *)
Definition returns_boolean (w : World) (name version : string) (s : state)
    : Prop :=
  exists b, fst (is_compatible w name version s) = Ok (PyBool b).

(** ** Concrete worlds and states

    A source tree with two Python files and a text file, tools with fixed
    answers, and the states the properties below are exercised on. *)

Module Demo.

Definition tree : node :=
  Dir [("a.py", File "print 'a'");
       ("notes.txt", File "todo");
       ("pkg", Dir [("b.py", File "print 'b'")])].

(** The rewrite in write mode: every file directly in the directory gets
    a converted body. *)
Definition convert (n : node) : node :=
  match n with
  | Dir es =>
      Dir (map (fun e =>
                  (fst e,
                   match snd e with
                   | File d => File ("# converted" +:+ nl +:+ d)
                   | Dir sub => Dir sub
                   end)) es)
  | File d => File d
  end.

(** A world: what the interpreter prints and its exit status, what the
    dependency-tree tool prints, and the evaluator's answer.  The preview
    of pkg/b.py fails, every other preview prints a diff header. *)
Definition world (probe_status : N) (version_text deptree : string)
    (answer : string -> result pyvalue) : World :=
  {| exec := fun argv _ _ =>
       if bool_decide (argv = ["python"; "--version"]) then
         Process probe_status version_text
       else if bool_decide (argv = ["pipdeptree"; "-w"]) then
         Process 0 deptree
       else if bool_decide (argv = ["2to3"; "-n"; "path_to_source_directory/pkg/b.py"]) then
         Process 1 "RefactoringTool: Can't parse"
       else Process 0 "--- original";
     rewrite := convert;
     default_environment := [("python_version", "3.8")];
     interpret := fun _ req => answer req |}.

Definition deptree : string := "Flask==1.0.0  six==1.12.0".

Definition all_true (req : string) : result pyvalue := Ok (PyBool true).

Definition flask_false (req : string) : result pyvalue :=
  Ok (PyBool (negb (String.eqb req "Flask==1.0.0"))).

Definition raising (req : string) : result pyvalue :=
  Raise (AttributeError "'dict' object has no attribute 'strip'").

Definition w38 : World := world 0 "Python 3.8.10" deptree all_true.
Definition w38_flask : World := world 0 "Python 3.8.10" deptree flask_false.
Definition w38_raising : World := world 0 "Python 3.8.10" deptree raising.
Definition w39 : World := world 0 "Python 3.9.7" deptree all_true.
Definition w390 : World := world 0 "Python 3.90.1" deptree all_true.
Definition w_failed : World := world 127 "python: not found" deptree all_true.
Definition w_garbled : World := world 0 "Python 3.8" deptree all_true.

(** Both directories exist, as the entry point requires. *)
Definition disk : gmap string node :=
  <[source_directory := tree]> (<[destination_directory := Dir []]> ∅).

(** Only the source exists. *)
Definition disk_no_destination : gmap string node :=
  <[source_directory := tree]> ∅.

Definition start (f : gmap string node) (lines : list string) : state :=
  State f lines [] false [] [].

End Demo.

(** ** Further observations and edge worlds *)

(** Every character of [s] is in the class. *)
Definition all_in (cls : ascii -> bool) (s : string) : bool :=
  forallb cls (list_ascii_of_string s).

(** A non-empty text over the class: what [class]+ matches in full. *)
Definition run_of (cls : ascii -> bool) (s : string) : bool :=
  negb (String.eqb s "") && all_in cls s.

(** Where a run of the class has to stop: at the end or before a character
    outside the class. *)
Definition stops (cls : ascii -> bool) (rest : string) : bool :=
  match rest with
  | EmptyString => true
  | String c _ => negb (cls c)
  end.

(** A dependency as the scanner's pattern reads one: a name over
    [a-zA-Z0-9_-] and a version over [0-9.], neither empty. *)
Definition well_formed_dep (dep : string * string) : bool :=
  run_of name_char (fst dep) && run_of version_char (snd dep).

(** The text [main] writes to compatibility-concerns.log for a list of
    dependencies. *)
Definition concerns_text (deps : list (string * string)) : string :=
  Text.concat (map (fun d => requirement d +:+ nl) deps).

(** Between [s] and [s'] no path outside [keys] changed. *)
Definition untouched_outside (keys : list string) (s s' : state) : Prop :=
  forall p, ~ In p keys -> fs s' !! p = fs s !! p.

Definition confined {A} (keys : list string) (m : M A) : Prop :=
  forall s, untouched_outside keys s (snd (m s)).

Module Edge.

(** The dependency-tree tool exits with status 2. *)
Definition w_scan_failed : World :=
  {| exec := fun argv _ _ =>
       if bool_decide (argv = ["python"; "--version"]) then
         Process 0 "Python 3.8.10"
       else if bool_decide (argv = ["pipdeptree"; "-w"]) then
         Process 2 "usage: pipdeptree"
       else Process 0 "--- original";
     rewrite := Demo.convert;
     default_environment := [("python_version", "3.8")];
     interpret := fun _ _ => Ok (PyBool true) |}.

(** Flask is judged incompatible, the evaluation of six raises. *)
Definition flask_false_six_raises (req : string) : result pyvalue :=
  if String.eqb req "six==1.12.0" then Raise (OtherError "bad marker")
  else Ok (PyBool (negb (String.eqb req "Flask==1.0.0"))).

Definition w_six_raises : World :=
  Demo.world 0 "Python 3.8.10" Demo.deptree flask_false_six_raises.

(** A directory has the name of the changes log. *)
Definition disk_log_is_directory : gmap string node :=
  <[changes_log := Dir []]> Demo.disk.

(** The dependency-tree tool prints three lines name==version. *)
Definition w_lines : World :=
  Demo.world 0 "Python 3.8.10"
    (concerns_text [("Flask", "1.0.0"); ("six", "1.12.0"); ("Flask", "1.0.0")])
    Demo.all_true.

(** The interpreter prints its version on a line of its own. *)
Definition w_version_line : World :=
  Demo.world 0 ("Python 3.11.4" +:+ nl) Demo.deptree Demo.all_true.

(** Every preview succeeds. *)
Definition w_clean : World :=
  {| exec := fun argv _ _ =>
       if bool_decide (argv = ["python"; "--version"]) then
         Process 0 "Python 3.8.10"
       else if bool_decide (argv = ["pipdeptree"; "-w"]) then
         Process 0 Demo.deptree
       else Process 0 "--- original";
     rewrite := Demo.convert;
     default_environment := [("python_version", "3.8")];
     interpret := fun _ _ => Ok (PyBool true) |}.

(** A regular file has the name of the source directory. *)
Definition disk_source_is_file : gmap string node :=
  <[source_directory := File "not a directory"]> Demo.disk.

End Edge.

(** ** The primitives on small inputs *)

Example search_version :
  Re.search version_pattern ("Python 3.8.10" +:+ nl) = Some ["3.8.10"].
Proof. reflexivity. Qed.

Example search_version_later :
  Re.search version_pattern "Python 3.8.x, Python 3.9.1rc" = Some ["3.9.1"].
Proof. reflexivity. Qed.

Example search_version_none : Re.search version_pattern "Python 3.8" = None.
Proof. reflexivity. Qed.

Example findall_dependencies :
  Re.findall dependency_pattern
    "Flask==1.0.2 - click [required: >=5.1, installed: 7.0] six==1.12.0"
  = [["Flask"; "1.0.2"]; ["six"; "1.12.0"]].
Proof. reflexivity. Qed.

Example findall_chained :
  Re.findall dependency_pattern "a==1==2 b-c==3.4" = [["a"; "1"]; ["b-c"; "3.4"]].
Proof. reflexivity. Qed.

Example strip_lower :
  Text.lower (Text.strip " Y ") = "y" /\ Text.lower (Text.strip "yes") = "yes".
Proof. split; reflexivity. Qed.

Example join_paths :
  Text.join "src" "a.py" = "src/a.py" /\ Text.join "src/" "a.py" = "src/a.py".
Proof. split; reflexivity. Qed.

Example endswith_py :
  Text.endswith "a.py" ".py" = true /\ Text.endswith "a.pyc" ".py" = false
  /\ Text.endswith "py" ".py" = false.
Proof. repeat split; reflexivity. Qed.

Example decimal_status :
  Text.decimal 0 = "0" /\ Text.decimal 17 = "17" /\ Text.decimal 100 = "100".
Proof. repeat split; reflexivity. Qed.

Example walk_demo :
  walk "src" Demo.tree
  = [("src", ["pkg"], ["a.py"; "notes.txt"]); ("src/pkg", [], ["b.py"])].
Proof. reflexivity. Qed.

Example py_files_demo : py_files "src" Demo.tree = ["src/a.py"; "src/pkg/b.py"].
Proof. reflexivity. Qed.

Example dict_set_keeps_place :
  dict_set "a" "2" [("a", "1"); ("b", "1")] = [("a", "2"); ("b", "1")].
Proof. reflexivity. Qed.

Example is_3_9_x_cases :
  is_3_9_x "3.9.7" = true /\ is_3_9_x "3.90.1" = false
  /\ is_3_9_x "3.9." = false /\ is_3_9_x "3.8.10" = false.
Proof. repeat split; reflexivity. Qed.

(** A confirmed run when the destination does not exist yet: the tree is
    copied and the copy rewritten. *)
Example fresh_destination_run :
  let run := main Demo.w38 source_directory destination_directory
                  (Demo.start Demo.disk_no_destination ["y"]) in
  fst run = Ok tt
  /\ fs (snd run) !! destination_directory = Some (Demo.convert Demo.tree)
  /\ fs (snd run) !! source_directory = Some Demo.tree
  /\ last (records (snd run)) = Some (INFO, "Update to Python 3.9 successful.").
Proof. vm_compute. repeat split; reflexivity. Qed.

(** ** State bookkeeping *)

Lemma fs_add_call e s : fs (add_call e s) = fs s.
Proof. reflexivity. Qed.

Lemma fs_add_record l m s : fs (add_record l m s) = fs s.
Proof. reflexivity. Qed.

Lemma fs_add_console m s : fs (add_console m s) = fs s.
Proof. reflexivity. Qed.

Lemma fs_set_stdin l s : fs (set_stdin l s) = fs s.
Proof. reflexivity. Qed.

Lemma fs_set_fs f s : fs (set_fs f s) = f.
Proof. reflexivity. Qed.

Lemma calls_add_call e s : calls (add_call e s) = calls s ++ [e].
Proof. reflexivity. Qed.

Lemma calls_add_record l m s : calls (add_record l m s) = calls s.
Proof. reflexivity. Qed.

Lemma calls_add_console m s : calls (add_console m s) = calls s.
Proof. reflexivity. Qed.

Lemma calls_set_stdin l s : calls (set_stdin l s) = calls s.
Proof. reflexivity. Qed.

Lemma calls_set_fs f s : calls (set_fs f s) = calls s.
Proof. reflexivity. Qed.

Lemma records_add_call e s : records (add_call e s) = records s.
Proof. reflexivity. Qed.

Lemma records_add_record l m s :
  records (add_record l m s) = records s ++ [(l, m)].
Proof. reflexivity. Qed.

Lemma records_add_console m s : records (add_console m s) = records s.
Proof. reflexivity. Qed.

Lemma records_set_stdin l s : records (set_stdin l s) = records s.
Proof. reflexivity. Qed.

Lemma records_set_fs f s : records (set_fs f s) = records s.
Proof. reflexivity. Qed.

Lemma stdin_add_call e s : stdin (add_call e s) = stdin s.
Proof. reflexivity. Qed.

Lemma stdin_add_record l m s : stdin (add_record l m s) = stdin s.
Proof. reflexivity. Qed.

Lemma stdin_set_fs f s : stdin (set_fs f s) = stdin s.
Proof. reflexivity. Qed.

Create Rewrite HintDb st.
#[export] Hint Rewrite fs_add_call fs_add_record fs_add_console fs_set_stdin
  fs_set_fs calls_add_call calls_add_record calls_add_console calls_set_stdin
  calls_set_fs records_add_call records_add_record records_add_console
  records_set_stdin records_set_fs stdin_add_call stdin_add_record
  stdin_set_fs : st.

(** ** The monad *)

Lemma bind_ok {A B} (m : M A) (k : A -> M B) s a s' :
  m s = (Ok a, s') -> bind m k s = k a s'.
Proof. intros H. unfold bind. now rewrite H. Qed.

Lemma bind_raise {A B} (m : M A) (k : A -> M B) s e s' :
  m s = (Raise e, s') -> bind m k s = (Raise e, s').
Proof. intros H. unfold bind. now rewrite H. Qed.

Lemma try_ok {A} (m : M A) handles h s a s' :
  m s = (Ok a, s') -> try_except m handles h s = (Ok a, s').
Proof. intros H. unfold try_except. now rewrite H. Qed.

Lemma try_caught {A} (m : M A) handles h s e s' :
  m s = (Raise e, s') -> handles e = true ->
  try_except m handles h s = h e s'.
Proof. intros H He. unfold try_except. now rewrite H, He. Qed.

Lemma try_passed {A} (m : M A) handles h s e s' :
  m s = (Raise e, s') -> handles e = false ->
  try_except m handles h s = (Raise e, s').
Proof. intros H He. unfold try_except. now rewrite H, He. Qed.

Lemma logger_info_run msg s : logger_info msg s = (Ok tt, add_record INFO msg s).
Proof. reflexivity. Qed.

Lemma logger_error_run msg s :
  logger_error msg s = (Ok tt, add_record ERROR msg s).
Proof. reflexivity. Qed.

(** ** The version probe *)

Section Probe.

Variable w : World.

Lemma spawn_error_directory src (f : gmap string node) :
  is_directory_at f src = true -> spawn_error (Some src) f = None.
Proof.
  unfold is_directory_at, spawn_error.
  destruct (f !! src) as [[d|es]|]; [discriminate|reflexivity|discriminate].
Qed.

Lemma check_output_ok argv cwd s :
  spawn_error cwd (fs s) = None ->
  returncode (exec w argv cwd (fs s)) = 0%N ->
  check_output w argv cwd s
  = (Ok (output (exec w argv cwd (fs s))), add_call (Spawn argv cwd) s).
Proof. intros Hs H. unfold check_output. now rewrite Hs, H. Qed.

Lemma check_output_fail argv cwd s :
  spawn_error cwd (fs s) = None ->
  returncode (exec w argv cwd (fs s)) <> 0%N ->
  check_output w argv cwd s
  = (Raise (CalledProcessError argv (returncode (exec w argv cwd (fs s)))
              (output (exec w argv cwd (fs s)))),
     add_call (Spawn argv cwd) s).
Proof.
  intros Hs H. unfold check_output. rewrite Hs.
  destruct (N.eqb_spec (returncode (exec w argv cwd (fs s))) 0); congruence.
Qed.

Lemma detected_inv src s v :
  detected w src s = Some v ->
  is_directory_at (fs s) src = true
  /\ returncode (exec w ["python"; "--version"] (Some src) (fs s)) = 0%N
  /\ exists rest,
      Re.search version_pattern
        (output (exec w ["python"; "--version"] (Some src) (fs s)))
      = Some (v :: rest).
Proof.
  unfold detected. intros H.
  destruct (is_directory_at (fs s) src); [|discriminate].
  destruct (N.eqb_spec
              (returncode (exec w ["python"; "--version"] (Some src) (fs s))) 0)
    as [E|E]; [|discriminate].
  split; [reflexivity|]. split; [exact E|].
  destruct (Re.search version_pattern _) as [[|v' rest]|]; try discriminate.
  injection H as ->. now exists rest.
Qed.

Lemma scan_python_version_detected src s v :
  detected w src s = Some v ->
  scan_python_version w src s = (Ok v, add_call (probe_call src) s).
Proof.
  intros H. destruct (detected_inv _ _ _ H) as [Hd [E [rest Hs]]].
  unfold scan_python_version.
  apply try_ok.
  rewrite (bind_ok _ _ _ _ _
             (check_output_ok _ _ _ (spawn_error_directory _ _ Hd) E)).
  now rewrite Hs.
Qed.

Lemma scan_python_version_nonzero src s :
  is_directory_at (fs s) src = true ->
  returncode (exec w ["python"; "--version"] (Some src) (fs s)) <> 0%N ->
  scan_python_version w src s
  = (Raise (RuntimeError
              ("Failed to determine Python version: "
               +:+ Text.strip
                     (output (exec w ["python"; "--version"] (Some src) (fs s))))),
     add_call (probe_call src) s).
Proof.
  intros Hd H. unfold scan_python_version.
  now rewrite (try_caught _ _ _ _ _ _
                 (bind_raise _ _ _ _ _
                    (check_output_fail _ _ _ (spawn_error_directory _ _ Hd) H))
                 eq_refl).
Qed.

Lemma scan_python_version_no_match src s :
  is_directory_at (fs s) src = true ->
  returncode (exec w ["python"; "--version"] (Some src) (fs s)) = 0%N ->
  Re.search version_pattern
    (output (exec w ["python"; "--version"] (Some src) (fs s))) = None ->
  scan_python_version w src s
  = (Raise (AttributeError "'NoneType' object has no attribute 'group'"),
     add_call (probe_call src) s).
Proof.
  intros Hd E Hs. unfold scan_python_version.
  apply try_passed; [|reflexivity].
  rewrite (bind_ok _ _ _ _ _
             (check_output_ok _ _ _ (spawn_error_directory _ _ Hd) E)).
  now rewrite Hs.
Qed.

(** After a successful probe [main] logs the version and branches on the
    prefix test. *)
Lemma main_detected src dst s v :
  detected w src s = Some v ->
  main w src dst s
  = (if Text.startswith v "3.9" then logger_info already_message
     else check_dependencies w src dst)
      (add_record INFO ("Detected Python version: " +:+ v)
         (add_call (probe_call src) s)).
Proof.
  intros H. unfold main.
  rewrite (bind_ok _ _ s (Some v)
             (add_record INFO ("Detected Python version: " +:+ v)
                (add_call (probe_call src) s))); [reflexivity|].
  apply try_ok.
  now rewrite (bind_ok _ _ _ _ _ (scan_python_version_detected _ _ _ H)).
Qed.

End Probe.

(** ** Failure of the version probe *)

(** C7: the interpreter being run in the source directory: when it exits
    with a status other than zero the probe raises [RuntimeError], [main]
    logs its message at ERROR level and ends with nothing else done; when it
    exits with status zero but the output has no "Python X.Y.Z", the group
    access raises [AttributeError], which neither the probe's handler nor
    [main]'s catches: it leaves [main] with no record logged. *)
Theorem version_probe_failure (w : World) (src dst : string) (s : state) :
  is_directory_at (fs s) src = true ->
  let p := exec w ["python"; "--version"] (Some src) (fs s) in
  (returncode p <> 0%N ->
     scan_python_version w src s
     = (Raise (RuntimeError ("Failed to determine Python version: "
                             +:+ Text.strip (output p))),
        add_call (probe_call src) s)
     /\ main w src dst s
        = (Ok tt,
           add_record ERROR
             ("Failed to determine Python version: " +:+ Text.strip (output p))
             (add_call (probe_call src) s)))
  /\ (returncode p = 0%N ->
      Re.search version_pattern (output p) = None ->
      scan_python_version w src s
      = (Raise (AttributeError "'NoneType' object has no attribute 'group'"),
         add_call (probe_call src) s)
      /\ main w src dst s
         = (Raise (AttributeError "'NoneType' object has no attribute 'group'"),
            add_call (probe_call src) s)).
Proof.
  intros Hd p. split.
  - intros H. pose proof (scan_python_version_nonzero w src s Hd H) as Hp.
    split; [exact Hp|].
    unfold main.
    rewrite (bind_ok _ _ s None
               (add_record ERROR
                  ("Failed to determine Python version: "
                   +:+ Text.strip (output p))
                  (add_call (probe_call src) s))); [reflexivity|].
    now rewrite (try_caught _ _ _ s _ _ (bind_raise _ _ _ _ _ Hp) eq_refl).
  - intros E Hs.
    pose proof (scan_python_version_no_match w src s Hd E Hs) as Hp.
    split; [exact Hp|].
    unfold main. apply bind_raise.
    apply try_passed; [|reflexivity].
    apply bind_raise, Hp.
Qed.

Lemma version_probe_failure_witness :
  main Demo.w_failed source_directory destination_directory
       (Demo.start Demo.disk ["y"])
  = (Ok tt,
     add_record ERROR "Failed to determine Python version: python: not found"
       (add_call (probe_call source_directory) (Demo.start Demo.disk ["y"])))
  /\ main Demo.w_garbled source_directory destination_directory
          (Demo.start Demo.disk ["y"])
     = (Raise (AttributeError "'NoneType' object has no attribute 'group'"),
        add_call (probe_call source_directory) (Demo.start Demo.disk ["y"])).
Proof.
  split.
  - apply (version_probe_failure Demo.w_failed source_directory
             destination_directory (Demo.start Demo.disk ["y"])).
    + vm_compute. reflexivity.
    + vm_compute. discriminate.
  - apply (version_probe_failure Demo.w_garbled source_directory
             destination_directory (Demo.start Demo.disk ["y"])).
    + vm_compute. reflexivity.
    + vm_compute. reflexivity.
    + vm_compute. reflexivity.
Defined.

(** ** The entry point *)

Lemma path_exists_none p s (k : bool -> M unit) :
  fs s !! p = None -> bind (path_exists p) k s = k false s.
Proof.
  intros H. unfold bind, path_exists. rewrite H.
  rewrite bool_decide_eq_false_2; [reflexivity|].
  intros [x Hx]. discriminate.
Qed.

Lemma path_exists_some p s n (k : bool -> M unit) :
  fs s !! p = Some n -> bind (path_exists p) k s = k true s.
Proof.
  intros H. unfold bind, path_exists. rewrite H.
  rewrite bool_decide_eq_true_2; [reflexivity|]. now exists n.
Qed.

(** C9: when the source or the destination directory is missing, the entry
    point prints one message on the console and ends normally (exit status
    zero); logging is not set up, nothing is logged and nothing is called. *)
Theorem missing_directory_exit (w : World) (s : state) :
  fs s !! source_directory = None \/ fs s !! destination_directory = None ->
  exists msg,
    program w s = (Ok tt, add_console msg s)
    /\ (msg = "Source directory 'path_to_source_directory' not found."
        \/ msg = "Destination directory 'path_to_destination_directory' not found.")
    /\ exit_status (fst (program w s)) = 0%N
    /\ logging_configured (snd (program w s)) = logging_configured s
    /\ records (snd (program w s)) = records s
    /\ calls (snd (program w s)) = calls s.
Proof.
  intros H.
  assert (exists msg, program w s = (Ok tt, add_console msg s)
          /\ (msg = "Source directory 'path_to_source_directory' not found."
              \/ msg = "Destination directory 'path_to_destination_directory' not found."))
    as [msg [Hrun Hmsg]].
  { unfold program.
    destruct (fs s !! source_directory) as [n|] eqn:Hsrc.
    - destruct H as [H|H]; [discriminate|].
      rewrite (path_exists_some _ _ n _ Hsrc). cbv beta. change (negb true) with false. cbv iota.
      rewrite (path_exists_none _ _ _ H).
      eexists. split; [reflexivity|]. right. reflexivity.
    - rewrite (path_exists_none _ _ _ Hsrc).
      eexists. split; [reflexivity|]. left. reflexivity. }
  exists msg. rewrite Hrun. repeat split; try assumption.
Qed.

Lemma missing_directory_exit_witness :
  exists msg,
    program Demo.w38 (Demo.start Demo.disk_no_destination ["y"])
    = (Ok tt, add_console msg (Demo.start Demo.disk_no_destination ["y"])).
Proof.
  destruct (missing_directory_exit Demo.w38
              (Demo.start Demo.disk_no_destination ["y"]))
    as [msg [H _]].
  - right. vm_compute. reflexivity.
  - exists msg. exact H.
Defined.

(** ** Scanning and judging the dependencies *)

Lemma state_eq s f i c g r k :
  fs s = f -> stdin s = i -> console s = c -> logging_configured s = g ->
  records s = r -> calls s = k -> s = State f i c g r k.
Proof. destruct s; simpl; intros; subst; reflexivity. Qed.

Lemma string_app_cons (c : ascii) (a b : string) :
  String c a +:+ b = String c (a +:+ b).
Proof. reflexivity. Qed.

Lemma string_app_nil_r (a : string) : a +:+ "" = a.
Proof.
  induction a as [|c a IH]; [reflexivity|].
  now rewrite string_app_cons, IH.
Qed.

Lemma string_app_assoc (a b c : string) : (a +:+ b) +:+ c = a +:+ (b +:+ c).
Proof.
  induction a as [|x a IH]; [reflexivity|].
  now rewrite !string_app_cons, IH.
Qed.

Lemma open_w_ok p s :
  is_directory_at (fs s) p = false ->
  open_w p s = (Ok tt, set_fs (<[p := File ""]> (fs s)) s).
Proof.
  unfold is_directory_at, open_w. intros H.
  destruct (fs s !! p) as [[d|es]|]; try reflexivity. discriminate.
Qed.

Lemma open_w_directory p s :
  is_directory_at (fs s) p = true ->
  open_w p s = (Raise (IsADirectoryError p), s).
Proof.
  unfold is_directory_at, open_w. intros H.
  destruct (fs s !! p) as [[d|es]|]; try discriminate. reflexivity.
Qed.

(** Writing a list of texts, with one record logged after each, to a file
    that is open: the texts end up appended in order. *)
Lemma for_each_write {A} (text : A -> string) (note : A -> option string)
    (body : A -> M unit) p :
  (forall x s,
     body x s
     = (Ok tt,
        match note x with
        | Some msg =>
            add_record INFO msg (set_fs (alter (append_text (text x)) p (fs s)) s)
        | None => set_fs (alter (append_text (text x)) p (fs s)) s
        end)) ->
  forall l s d0,
    fs s !! p = Some (File d0) ->
    for_each body l s
    = (Ok tt,
       set_fs (<[p := File (d0 +:+ Text.concat (map text l))]> (fs s))
         (add_records (omap (fun x => (fun m => (INFO, m)) <$> note x) l) s)).
Proof.
  intros Hbody l. induction l as [|x l IH]; intros s d0 Hp.
  - simpl. unfold ret. f_equal. apply state_eq; simpl; try reflexivity.
    + rewrite string_app_nil_r. now rewrite insert_id.
    + now rewrite app_nil_r.
  - change (for_each body (x :: l)) with (bind (body x) (fun _ => for_each body l)).
    erewrite bind_ok by apply Hbody.
    assert (Hfs : forall s0 : state,
               fs s0 = alter (append_text (text x)) p (fs s) ->
               fs s0 !! p = Some (File (d0 +:+ text x))).
    { intros s0 ->. rewrite lookup_alter_eq, Hp. reflexivity. }
    destruct (note x) as [msg|] eqn:Hn.
    + rewrite (IH _ (d0 +:+ text x)) by (apply Hfs; reflexivity).
      f_equal. apply state_eq; simpl; try reflexivity.
      * rewrite string_app_assoc. apply map_eq. intros i.
        destruct (decide (p = i)) as [->|Hne].
        -- now rewrite !lookup_insert_eq.
        -- now rewrite !lookup_insert_ne, lookup_alter_ne by assumption.
      * rewrite Hn. simpl. now rewrite <- app_assoc.
    + rewrite (IH _ (d0 +:+ text x)) by (apply Hfs; reflexivity).
      f_equal. apply state_eq; simpl; try reflexivity.
      * rewrite string_app_assoc. apply map_eq. intros i.
        destruct (decide (p = i)) as [->|Hne].
        -- now rewrite !lookup_insert_eq.
        -- now rewrite !lookup_insert_ne, lookup_alter_ne by assumption.
      * now rewrite Hn.
Qed.

Section Dependencies.

Variable w : World.

Lemma scan_dependencies_scanned s deps :
  scanned w s = Some deps ->
  scan_dependencies w s = (Ok deps, add_call scanner_call s).
Proof.
  unfold scanned, scan_dependencies. intros H.
  destruct (N.eqb_spec (returncode (exec w ["pipdeptree"; "-w"] None (fs s))) 0)
    as [E|E]; [|discriminate].
  injection H as <-.
  now rewrite (bind_ok _ _ _ _ _ (check_output_ok w _ None _ eq_refl E)).
Qed.

Lemma is_compatible_run name version s :
  is_compatible w name version s
  = (interpret w (default_environment w) (name +:+ "==" +:+ version),
     add_call (MarkerEval (default_environment w) (name +:+ "==" +:+ version)) s).
Proof. reflexivity. Qed.

Lemma collect_incompatible_judged acc dep s b :
  verdict w dep = Some b ->
  collect_incompatible w acc dep s
  = (Ok (if incompatible w dep then acc ++ [dep] else acc),
     add_call (marker_call w dep) s).
Proof.
  unfold collect_incompatible, incompatible, verdict, bind.
  rewrite is_compatible_run. fold (requirement dep).
  destruct (interpret w (default_environment w) (requirement dep)) as [v|e];
    [|discriminate].
  intros _. destruct (truthy v); reflexivity.
Qed.

Lemma foldM_collect deps : forall acc s,
  Forall (fun d => is_Some (verdict w d)) deps ->
  foldM (collect_incompatible w) acc deps s
  = (Ok (acc ++ List.filter (incompatible w) deps),
     add_calls (map (marker_call w) deps) s).
Proof.
  induction deps as [|d deps IH]; intros acc s H.
  - simpl. unfold ret. f_equal; [now rewrite app_nil_r|].
    apply state_eq; simpl; try reflexivity. now rewrite app_nil_r.
  - inversion H as [|? ? [b Hb] Hrest]; subst.
    change (foldM (collect_incompatible w) acc (d :: deps))
      with (bind (collect_incompatible w acc d)
              (fun acc' => foldM (collect_incompatible w) acc' deps)).
    rewrite (bind_ok _ _ _ _ _ (collect_incompatible_judged acc d s b Hb)).
    rewrite IH by assumption. f_equal.
    + f_equal. simpl List.filter.
      destruct (incompatible w d); [now rewrite <- app_assoc|reflexivity].
    + apply state_eq; simpl; try reflexivity. now rewrite <- app_assoc.
Qed.

Lemma write_concern_run dep s :
  write_concern dep s
  = (Ok tt,
     add_record INFO (requirement dep)
       (set_fs (alter (append_text (requirement dep +:+ nl)) concerns_log (fs s))
          s)).
Proof. reflexivity. Qed.

End Dependencies.

(** ** The report of the incompatible dependencies *)

Section Report.

Variable w : World.

Lemma report_run (bad : list (string * string)) s :
  bad <> [] ->
  is_directory_at (fs s) concerns_log = false ->
  (logger_info
     "The following dependencies are not compatible with Python 3.9:" >>
   open_w concerns_log >>
   for_each write_concern bad >>
   logger_info
     "Please review the compatibility-concerns.log file for more details.") s
  = (Ok tt,
     add_record INFO
       "Please review the compatibility-concerns.log file for more details."
       (set_fs
          (<[concerns_log :=
               File (Text.concat (map (fun d => requirement d +:+ nl) bad))]>
             (fs s))
          (add_records (map (fun d => (INFO, requirement d)) bad)
             (add_record INFO
                "The following dependencies are not compatible with Python 3.9:"
                s)))).
Proof.
  intros _ Hlog.
  rewrite (bind_ok _ _ _ _ _ (logger_info_run _ _)).
  rewrite (bind_ok _ _ _ _ _ (open_w_ok _ (add_record INFO _ s) Hlog)).
  rewrite (bind_ok _ _ _ _ _
             (for_each_write (fun d => requirement d +:+ nl)
                (fun d => Some (requirement d)) write_concern concerns_log
                write_concern_run bad _ "" (lookup_insert_eq _ _ _))).
  unfold logger_info. do 2 f_equal.
  apply state_eq; simpl; try reflexivity.
  now rewrite insert_insert_eq.
Qed.

Lemma check_dependencies_report src dst s deps :
  scanned w s = Some deps ->
  Forall (fun d => is_Some (verdict w d)) deps ->
  List.filter (incompatible w) deps <> [] ->
  is_directory_at (fs s) concerns_log = false ->
  check_dependencies w src dst s
  = (Ok tt,
     add_record INFO
       "Please review the compatibility-concerns.log file for more details."
       (set_fs
          (<[concerns_log :=
               File (Text.concat
                       (map (fun d => requirement d +:+ nl)
                            (List.filter (incompatible w) deps)))]>
             (fs s))
          (add_records
             (map (fun d => (INFO, requirement d))
                  (List.filter (incompatible w) deps))
             (add_record INFO
                "The following dependencies are not compatible with Python 3.9:"
                (add_calls (map (marker_call w) deps)
                   (add_call scanner_call s)))))).
Proof.
  intros Hscan Hjudged Hbad Hlog.
  unfold check_dependencies. apply try_ok.
  rewrite (bind_ok _ _ _ _ _ (scan_dependencies_scanned w s deps Hscan)).
  unfold report_or_preview.
  rewrite (bind_ok _ _ _ _ _ (foldM_collect w deps [] _ Hjudged)).
  simpl app.
  pose proof (report_run (List.filter (incompatible w) deps)
                (add_calls (map (marker_call w) deps) (add_call scanner_call s))
                Hbad Hlog) as Hrun.
  destruct (List.filter (incompatible w) deps) as [|d l]; [congruence|].
  exact Hrun.
Qed.

End Report.


(** ** What a run may call and what it leaves alone *)

Section Frame.

Variable src : string.

Lemma quiet_step_refl s : quiet_step src s s.
Proof.
  split; [auto|]. exists []. split; [now rewrite app_nil_r|constructor].
Qed.

Lemma quiet_step_trans s1 s2 s3 :
  quiet_step src s1 s2 -> quiet_step src s2 s3 -> quiet_step src s1 s3.
Proof.
  intros [F1 [n1 [C1 Q1]]] [F2 [n2 [C2 Q2]]]. split; [auto|].
  exists (n1 ++ n2). split.
  - now rewrite C2, C1, app_assoc.
  - now apply Forall_app.
Qed.

Lemma quiet_step_same s s' :
  fs s' = fs s -> calls s' = calls s -> quiet_step src s s'.
Proof.
  intros Hf Hc. split.
  - intros es. now rewrite Hf.
  - exists []. split; [now rewrite app_nil_r|constructor].
Qed.

Lemma quiet_step_call e s s' :
  quiet e = true -> fs s' = fs s -> calls s' = calls s ++ [e] ->
  quiet_step src s s'.
Proof.
  intros He Hf Hc. split.
  - intros es. now rewrite Hf.
  - exists [e]. split; [exact Hc|]. now repeat constructor.
Qed.

Lemma silent_quiet {A} (m : M A) : silent_run m -> quiet_run src m.
Proof. intros H s. destruct (H s). now apply quiet_step_same. Qed.

Lemma quiet_ret {A} (a : A) : quiet_run src (ret a).
Proof. intros s. apply quiet_step_refl. Qed.

Lemma quiet_raise {A} e : quiet_run src (@raise A e).
Proof. intros s. apply quiet_step_refl. Qed.

Lemma quiet_bind {A B} (m : M A) (k : A -> M B) :
  quiet_run src m -> (forall a, quiet_run src (k a)) ->
  quiet_run src (bind m k).
Proof.
  intros Hm Hk s. specialize (Hm s). unfold bind.
  destruct (m s) as [[a|e] s1]; simpl in Hm.
  - eapply quiet_step_trans; [exact Hm|apply Hk].
  - exact Hm.
Qed.

Lemma quiet_try {A} (m : M A) handles (h : exn -> M A) :
  quiet_run src m -> (forall e, quiet_run src (h e)) ->
  quiet_run src (try_except m handles h).
Proof.
  intros Hm Hh s. specialize (Hm s). unfold try_except.
  destruct (m s) as [[a|e] s1]; simpl in Hm; [exact Hm|].
  destruct (handles e); [|exact Hm].
  eapply quiet_step_trans; [exact Hm|apply Hh].
Qed.

Lemma quiet_foldM {A B} (body : B -> A -> M B) :
  (forall acc x, quiet_run src (body acc x)) ->
  forall l acc, quiet_run src (foldM body acc l).
Proof.
  intros Hb l. induction l as [|x l IH]; intros acc.
  - apply quiet_ret.
  - apply quiet_bind; [apply Hb|]. intros a. apply IH.
Qed.

Lemma quiet_for_each {A} (body : A -> M unit) :
  (forall x, quiet_run src (body x)) ->
  forall l, quiet_run src (for_each body l).
Proof.
  intros Hb l. induction l as [|x l IH].
  - apply quiet_ret.
  - apply quiet_bind; [apply Hb|]. intros _. exact IH.
Qed.

Lemma silent_logger_info msg : silent_run (logger_info msg).
Proof. intros s. split; reflexivity. Qed.

Lemma silent_logger_error msg : silent_run (logger_error msg).
Proof. intros s. split; reflexivity. Qed.

Lemma quiet_check_output w argv cwd :
  quiet (Spawn argv cwd) = true -> quiet_run src (check_output w argv cwd).
Proof.
  intros Hq s. unfold check_output.
  destruct (spawn_error cwd (fs s)); [apply quiet_step_refl|].
  destruct (returncode (exec w argv cwd (fs s)) =? 0)%N; simpl;
    now apply (quiet_step_call (Spawn argv cwd)).
Qed.

Lemma quiet_call_interpret w env req : quiet_run src (call_interpret w env req).
Proof.
  intros s. now apply (quiet_step_call (MarkerEval env req)).
Qed.

Lemma quiet_os_walk top : quiet_run src (os_walk top).
Proof. intros s. apply quiet_step_refl. Qed.

Lemma quiet_input prompt : quiet_run src (input prompt).
Proof.
  intros s. unfold input. destruct (stdin s); now apply quiet_step_same.
Qed.

(** Opening a file for writing fails on a directory, so a directory at
    [src] stays whatever the name opened. *)
Lemma quiet_open_w p : quiet_run src (open_w p).
Proof.
  intros s. unfold open_w.
  destruct (fs s !! p) as [[d|es]|] eqn:Hp; simpl;
    try apply quiet_step_refl.
  - split; [|exists []; split; [now rewrite app_nil_r|constructor]].
    intros es Hs. simpl. rewrite lookup_insert_ne; [exact Hs|congruence].
  - split; [|exists []; split; [now rewrite app_nil_r|constructor]].
    intros es Hs. simpl. rewrite lookup_insert_ne; [exact Hs|congruence].
Qed.

(** Writing appends to a file and does nothing to a directory. *)
Lemma quiet_file_write p text : quiet_run src (file_write p text).
Proof.
  intros s. split; [|exists []; split; [now rewrite app_nil_r|constructor]].
  intros es Hs. simpl.
  destruct (decide (p = src)) as [->|Hne].
  - now rewrite lookup_alter_eq, Hs.
  - now rewrite lookup_alter_ne.
Qed.

Section Script.

Variable w : World.

Lemma quiet_scan_python_version d : quiet_run src (scan_python_version w d).
Proof.
  unfold scan_python_version. apply quiet_try.
  - apply quiet_bind; [now apply quiet_check_output|].
    intros out. destruct (Re.search version_pattern out) as [[|v l]|];
      first [apply quiet_ret | apply quiet_raise].
  - intros e. apply quiet_raise.
Qed.

Lemma quiet_scan_dependencies : quiet_run src (scan_dependencies w).
Proof.
  unfold scan_dependencies. apply quiet_bind; [now apply quiet_check_output|].
  intros out. apply quiet_ret.
Qed.

Lemma quiet_collect_incompatible acc dep :
  quiet_run src (collect_incompatible w acc dep).
Proof.
  unfold collect_incompatible. apply quiet_bind.
  - apply quiet_call_interpret.
  - intros v. destruct (negb (truthy v)); apply quiet_ret.
Qed.

Lemma quiet_write_concern dep : quiet_run src (write_concern dep).
Proof.
  unfold write_concern. apply quiet_bind; [apply quiet_file_write|].
  intros _. apply silent_quiet, silent_logger_info.
Qed.

Lemma quiet_dry_run_file root acc file_name :
  quiet_run src (dry_run_file w root acc file_name).
Proof.
  unfold dry_run_file. destruct (Text.endswith file_name ".py");
    [|apply quiet_ret].
  apply quiet_try.
  - apply quiet_bind; [now apply quiet_check_output|].
    intros out. apply quiet_ret.
  - intros e. apply quiet_bind; [apply silent_quiet, silent_logger_error|].
    intros _. apply quiet_ret.
Qed.

Lemma quiet_dry_run_2to3 d : quiet_run src (dry_run_2to3 w d).
Proof.
  unfold dry_run_2to3. apply quiet_bind; [apply quiet_os_walk|].
  intros tree. apply quiet_bind.
  - apply quiet_foldM. intros acc triple. apply quiet_foldM.
    intros acc' f. apply quiet_dry_run_file.
  - intros proposed. apply quiet_bind; [apply quiet_open_w|].
    intros _. apply quiet_for_each. intros entry. apply quiet_file_write.
Qed.

End Script.

End Frame.

(** ** The source tree is not written to *)

Section Migration.

Variables src dst : string.

Lemma quiet_migration s s' : quiet_step src s s' -> migration_step src dst s s'.
Proof.
  intros [F [new [C Q]]]. split; [exact F|].
  exists new, []. split; [now rewrite app_nil_r|]. split; [exact Q|now left].
Qed.

Lemma quiet_then_migration s1 s2 s3 :
  quiet_step src s1 s2 -> migration_step src dst s2 s3 ->
  migration_step src dst s1 s3.
Proof.
  intros [F1 [n1 [C1 Q1]]] [F2 [pre [tail [C2 [Q2 T]]]]]. split; [auto|].
  exists (n1 ++ pre), tail. split; [|split].
  - now rewrite C2, C1, <- !app_assoc.
  - now apply Forall_app.
  - exact T.
Qed.

Lemma migration_then_same s1 s2 s3 :
  migration_step src dst s1 s2 -> fs s3 = fs s2 -> calls s3 = calls s2 ->
  migration_step src dst s1 s3.
Proof.
  intros [F [pre [tail [C [Q T]]]]] Hf Hc. split.
  - intros es H. rewrite Hf. auto.
  - exists pre, tail. now rewrite Hc.
Qed.

Lemma migration_of_quiet {A} (m : M A) :
  quiet_run src m -> migration_run src dst m.
Proof. intros H s. apply quiet_migration, H. Qed.

Lemma migration_bind {A B} (m : M A) (k : A -> M B) :
  quiet_run src m -> (forall a, migration_run src dst (k a)) ->
  migration_run src dst (bind m k).
Proof.
  intros Hm Hk s. specialize (Hm s). unfold bind.
  destruct (m s) as [[a|e] s1]; simpl in Hm.
  - eapply quiet_then_migration; [exact Hm|apply Hk].
  - now apply quiet_migration.
Qed.

Lemma migration_bind_silent {A B} (m : M A) (k : A -> M B) :
  migration_run src dst m -> (forall a, silent_run (k a)) ->
  migration_run src dst (bind m k).
Proof.
  intros Hm Hk s. specialize (Hm s). unfold bind.
  destruct (m s) as [[a|e] s1]; simpl in Hm; [|exact Hm].
  destruct (Hk a s1) as [Hf Hc].
  eapply migration_then_same; eauto.
Qed.

Lemma migration_try_silent {A} (m : M A) handles (h : exn -> M A) :
  migration_run src dst m -> (forall e, silent_run (h e)) ->
  migration_run src dst (try_except m handles h).
Proof.
  intros Hm Hh s. specialize (Hm s). unfold try_except.
  destruct (m s) as [[a|e] s1]; simpl in Hm; [exact Hm|].
  destruct (handles e); [|exact Hm].
  destruct (Hh e s1) as [Hf Hc].
  eapply migration_then_same; eauto.
Qed.

Variable w : World.

(** The executor: the copy is refused unless the destination is absent,
    hence different from an existing source; the rewrite then touches the
    destination only. *)
Lemma migration_update : migration_run src dst (update_to_python_3_9 w src dst).
Proof.
  intros s. unfold update_to_python_3_9, bind, copytree.
  destruct (fs s !! src) as [[d|es]|] eqn:Hsrc; simpl.
  - split; [intros es H; congruence|].
    exists [], [Copytree src dst]. repeat split; [constructor|]. right. now left.
  - destruct (fs s !! dst) as [n|] eqn:Hdst; simpl.
    + split; [intros es' H; exact H|].
      exists [], [Copytree src dst]. repeat split; [constructor|].
      right. now left.
    + assert (dst <> src) as Hne by congruence.
      split.
      * intros es' H. rewrite fs_set_fs.
      rewrite lookup_alter_ne, lookup_insert_ne by exact Hne.
        congruence.
      * exists [], [Copytree src dst; write_call dst].
        repeat split; [|constructor|right; now right].
        autorewrite with st. now rewrite <- app_assoc.
  - split; [intros es H; congruence|].
    exists [], [Copytree src dst]. repeat split; [constructor|]. right. now left.
Qed.

Lemma migration_confirm_and_update :
  migration_run src dst (confirm_and_update w src dst).
Proof.
  unfold confirm_and_update.
  apply migration_bind; [apply silent_quiet, silent_logger_info|]. intros _.
  apply migration_bind; [apply quiet_input|]. intros line.
  destruct (String.eqb (Text.lower (Text.strip line)) "y").
  - apply migration_bind_silent; [apply migration_update|].
    intros _. apply silent_logger_info.
  - destruct (String.eqb (Text.lower (Text.strip line)) "n");
      apply migration_of_quiet, silent_quiet;
      [apply silent_logger_info|apply silent_logger_error].
Qed.

Lemma migration_preview_and_confirm :
  migration_run src dst (preview_and_confirm w src dst).
Proof.
  unfold preview_and_confirm. apply migration_try_silent.
  - apply migration_bind; [apply quiet_dry_run_2to3|]. intros _.
    apply migration_confirm_and_update.
  - intros e. apply silent_logger_error.
Qed.

Lemma migration_report_or_preview deps :
  migration_run src dst (report_or_preview w src dst deps).
Proof.
  unfold report_or_preview. apply migration_bind.
  - apply quiet_foldM. intros acc d. apply quiet_collect_incompatible.
  - intros [|d bad].
    + apply migration_bind; [apply silent_quiet, silent_logger_info|].
      intros _. apply migration_preview_and_confirm.
    + apply migration_of_quiet.
      apply quiet_bind; [apply silent_quiet, silent_logger_info|]. intros _.
      apply quiet_bind; [apply quiet_open_w|]. intros _.
      apply quiet_bind;
        [apply quiet_for_each; intros x; apply quiet_write_concern|].
      intros _. apply silent_quiet, silent_logger_info.
Qed.

Lemma migration_check_dependencies :
  migration_run src dst (check_dependencies w src dst).
Proof.
  unfold check_dependencies. apply migration_try_silent.
  - apply migration_bind; [apply quiet_scan_dependencies|].
    intros deps. apply migration_report_or_preview.
  - intros e. apply silent_logger_error.
Qed.

Lemma migration_main : migration_run src dst (main w src dst).
Proof.
  unfold main. apply migration_bind.
  - apply quiet_try.
    + apply quiet_bind; [apply quiet_scan_python_version|]. intros v.
      apply quiet_bind; [apply silent_quiet, silent_logger_info|].
      intros _. apply quiet_ret.
    + intros e. apply quiet_bind; [apply silent_quiet, silent_logger_error|].
      intros _. apply quiet_ret.
  - intros [v|]; [|apply migration_of_quiet, quiet_ret].
    destruct (Text.startswith v "3.9").
    + apply migration_of_quiet, silent_quiet, silent_logger_info.
    + apply migration_check_dependencies.
Qed.

End Migration.

Lemma quiet_spec e :
  quiet e = true <-> is_copy e = false /\ is_write_mode e = false.
Proof.
  unfold quiet. destruct (is_copy e), (is_write_mode e); simpl; intuition congruence.
Qed.


(** ** The AlreadyTarget guard *)

Lemma scan_dependencies_state w s :
  snd (scan_dependencies w s) = add_call scanner_call s.
Proof.
  unfold scan_dependencies, bind, check_output.
  destruct (returncode (exec w ["pipdeptree"; "-w"] None (fs s)) =? 0)%N;
    reflexivity.
Qed.

(** Once the dependency check is entered the scanner is the next call. *)
Lemma check_dependencies_calls w src dst s :
  exists more,
    calls (snd (check_dependencies w src dst s))
    = calls s ++ scanner_call :: more.
Proof.
  pose proof (scan_dependencies_state w s) as Hs.
  unfold check_dependencies, try_except, bind.
  destruct (scan_dependencies w s) as [[deps|e] s1]; simpl in Hs; subst s1.
  - destruct (migration_report_or_preview src dst w deps
                (add_call scanner_call s)) as [_ [pre [tail [C _]]]].
    exists (pre ++ tail).
    destruct (report_or_preview w src dst deps (add_call scanner_call s))
      as [[[]|e] s2]; simpl in *; rewrite C; autorewrite with st;
      now rewrite <- app_assoc.
  - exists []. reflexivity.
Qed.

Lemma prefix_app_l (a b s : string) :
  String.prefix (a +:+ b) s = true -> String.prefix a s = true.
Proof.
  revert s. induction a as [|c a IH]; intros s H; [now destruct s|].
  rewrite string_app_cons in H. destruct s as [|c' s]; [discriminate|].
  simpl in *. destruct (ascii_dec c c'); [now apply IH|discriminate].
Qed.

Lemma is_3_9_x_prefix v : is_3_9_x v = true -> Text.startswith v "3.9" = true.
Proof.
  unfold is_3_9_x, Text.startswith. intros H.
  apply andb_prop in H as [H _]. apply andb_prop in H as [H _].
  now apply (prefix_app_l "3.9" ".").
Qed.

(** C5, as the code has it: for a detected version string, the run ends in
    AlreadyTarget without a call to the dependency scanner exactly when the
    string begins with the characters 3.9; every string of the form 3.9.x
    does. *)
Theorem already_target_iff_prefix (w : World) (src dst : string) (s : state)
    (v : string) :
  detected w src s = Some v ->
  (already_target w src dst s <-> Text.startswith v "3.9" = true)
  /\ (is_3_9_x v = true -> already_target w src dst s).
Proof.
  intros Hv.
  assert (Hyes : Text.startswith v "3.9" = true -> already_target w src dst s).
  { intros H39. unfold already_target.
    rewrite (main_detected w src dst s v Hv), H39.
    repeat split. simpl. apply last_snoc. }
  split; [split; [|exact Hyes]|].
  - intros [_ [Hcalls _]].
    destruct (Text.startswith v "3.9") eqn:H39; [reflexivity|exfalso].
    rewrite (main_detected w src dst s v Hv), H39 in Hcalls.
    destruct (check_dependencies_calls w src dst
                (add_record INFO ("Detected Python version: " +:+ v)
                   (add_call (probe_call src) s))) as [more Hmore].
    rewrite Hmore in Hcalls. autorewrite with st in Hcalls.
    rewrite <- app_assoc in Hcalls. apply app_inv_head in Hcalls.
    discriminate.
  - intros H. apply Hyes, is_3_9_x_prefix, H.
Qed.

Lemma already_target_iff_prefix_witness :
  already_target Demo.w39 source_directory destination_directory
                 (Demo.start Demo.disk ["y"]).
Proof.
  apply (already_target_iff_prefix Demo.w39 source_directory
           destination_directory (Demo.start Demo.disk ["y"]) "3.9.7").
  - vm_compute. reflexivity.
  - vm_compute. reflexivity.
Defined.

(** C5 as worded fails: the interpreter reports 3.90.1, which is not of the
    form 3.9.x, and the run still ends in AlreadyTarget without a scan. *)
Lemma prefix_match_accepts_3_90 :
  detected Demo.w390 source_directory (Demo.start Demo.disk ["y"])
  = Some "3.90.1"
  /\ is_3_9_x "3.90.1" = false
  /\ already_target Demo.w390 source_directory destination_directory
                    (Demo.start Demo.disk ["y"]).
Proof.
  split; [vm_compute; reflexivity|].
  split; [vm_compute; reflexivity|].
  unfold already_target. repeat split; vm_compute; reflexivity.
Qed.

(** ** The compatibility check *)

(** C3, as the code has it: the check makes one marker-evaluation call, on
    the current default environment and the text name==version, and hands
    back the outcome of that call unchanged; so it returns a boolean
    exactly when the evaluator returns one, and raises when it raises. *)
Theorem is_compatible_delegates (w : World) (name version : string)
    (s : state) :
  fst (is_compatible w name version s)
  = interpret w (default_environment w) (name +:+ "==" +:+ version)
  /\ snd (is_compatible w name version s)
     = add_call (MarkerEval (default_environment w)
                   (name +:+ "==" +:+ version)) s
  /\ (returns_boolean w name version s
      <-> exists b,
          interpret w (default_environment w) (name +:+ "==" +:+ version)
          = Ok (PyBool b))
  /\ (forall e,
        interpret w (default_environment w) (name +:+ "==" +:+ version)
        = Raise e ->
        fst (is_compatible w name version s) = Raise e).
Proof.
  rewrite is_compatible_run. simpl. repeat split.
  - intros [b Hb]. exists b.
    unfold returns_boolean in *. now rewrite is_compatible_run in Hb.
  - intros [b Hb]. exists b. now rewrite is_compatible_run.
  - auto.
Qed.

Lemma is_compatible_delegates_witness :
  fst (is_compatible Demo.w38_raising "Flask" "1.0.0"
         (Demo.start Demo.disk ["y"]))
  = Raise (AttributeError "'dict' object has no attribute 'strip'").
Proof.
  apply (is_compatible_delegates Demo.w38_raising "Flask" "1.0.0"
           (Demo.start Demo.disk ["y"])).
  reflexivity.
Defined.

(** C3 as worded fails: an evaluator that raises makes the check raise. *)
Lemma is_compatible_may_raise :
  fst (is_compatible Demo.w38_raising "Flask" "1.0.0"
         (Demo.start Demo.disk ["y"]))
  = Raise (AttributeError "'dict' object has no attribute 'strip'")
  /\ ~ returns_boolean Demo.w38_raising "Flask" "1.0.0"
         (Demo.start Demo.disk ["y"]).
Proof.
  split; [reflexivity|]. intros [b Hb]. vm_compute in Hb. discriminate.
Qed.

(** ** The preview *)

Lemma node_induction (P : node -> Prop) :
  (forall d, P (File d)) ->
  (forall es, Forall (fun e => P (snd e)) es -> P (Dir es)) ->
  forall n, P n.
Proof.
  intros Hf Hd. fix IH 1. intros [d|es]; [apply Hf|]. apply Hd.
  induction es as [|[name child] es IHes]; constructor;
    [apply IH|exact IHes].
Qed.

Lemma triple_paths_app a b : triple_paths (a ++ b) = triple_paths a ++ triple_paths b.
Proof. unfold triple_paths. apply flat_map_app. Qed.

(** The walk visits exactly the files that [py_files] lists, in its order. *)
Lemma triple_paths_walk n : forall top, triple_paths (walk top n) = py_files top n.
Proof.
  induction n as [d|es IH] using node_induction; intros top; [reflexivity|].
  simpl walk. simpl py_files.
  change (triple_paths (?t :: ?l)) with (paths_in (fst (fst t)) (snd t) ++ triple_paths l).
  simpl fst. simpl snd. unfold paths_in at 1. f_equal.
  induction es as [|[name child] es IHes]; [reflexivity|].
  inversion IH as [|? ? Hchild Hrest]; subst.
  rewrite triple_paths_app. simpl in Hchild. rewrite Hchild.
  f_equal. now apply IHes.
Qed.

Section DryRun.

Variable w : World.

Lemma fs_previewed paths s : fs (previewed w paths s) = fs s.
Proof. reflexivity. Qed.

Lemma calls_previewed paths s :
  calls (previewed w paths s) = calls s ++ map dry_run_call paths.
Proof. reflexivity. Qed.

Lemma records_previewed paths s :
  records (previewed w paths s)
  = records s
    ++ map (failure_record w (fs s)) (failed_previews w (fs s) paths).
Proof. reflexivity. Qed.

Lemma previewed_nil s : previewed w [] s = s.
Proof.
  apply eq_sym, state_eq; simpl; try reflexivity; now rewrite app_nil_r.
Qed.

Lemma previewed_app a b s :
  previewed w (a ++ b) s = previewed w b (previewed w a s).
Proof.
  unfold previewed, failed_previews. apply state_eq; simpl; try reflexivity.
  - now rewrite List.filter_app, map_app, app_assoc.
  - now rewrite map_app, app_assoc.
Qed.

Lemma record_previews_app f acc a b :
  record_previews w f acc (a ++ b)
  = record_previews w f (record_previews w f acc a) b.
Proof. unfold record_previews. apply fold_left_app. Qed.

Lemma dry_run_file_run root acc name s :
  dry_run_file w root acc name s
  = (Ok (record_previews w (fs s) acc (paths_in root [name])),
     previewed w (paths_in root [name]) s).
Proof.
  unfold dry_run_file, paths_in. simpl List.filter.
  destruct (Text.endswith name ".py"); simpl map.
  - unfold record_previews, previewed, failed_previews. simpl fold_left.
    simpl List.filter. unfold try_except, bind, check_output, preview_ok, preview.
    destruct (returncode (exec w ["2to3"; "-n"; Text.join root name] None (fs s))
              =? 0)%N; simpl; f_equal; apply state_eq; simpl;
      rewrite ?app_nil_r; reflexivity.
  - unfold ret. now rewrite previewed_nil.
Qed.

Lemma dry_run_files_run root files : forall acc s,
  foldM (dry_run_file w root) acc files s
  = (Ok (record_previews w (fs s) acc (paths_in root files)),
     previewed w (paths_in root files) s).
Proof.
  induction files as [|name files IH]; intros acc s.
  - simpl. unfold ret. now rewrite previewed_nil.
  - change (foldM (dry_run_file w root) acc (name :: files))
      with (bind (dry_run_file w root acc name)
              (fun acc' => foldM (dry_run_file w root) acc' files)).
    rewrite (bind_ok _ _ _ _ _ (dry_run_file_run root acc name s)).
    rewrite IH, fs_previewed.
    change (paths_in root (name :: files))
      with (paths_in root ([name] ++ files)).
    unfold paths_in at 5 6. rewrite List.filter_app, map_app.
    fold (paths_in root [name]). fold (paths_in root files).
    now rewrite record_previews_app, previewed_app.
Qed.

Lemma dry_run_walk_run triples : forall acc s,
  foldM (fun acc triple =>
           foldM (dry_run_file w (fst (fst triple))) acc (snd triple))
        acc triples s
  = (Ok (record_previews w (fs s) acc (triple_paths triples)),
     previewed w (triple_paths triples) s).
Proof.
  induction triples as [|t triples IH]; intros acc s.
  - simpl. unfold ret. now rewrite previewed_nil.
  - change (foldM ?body acc (t :: triples))
      with (bind (body acc t) (fun acc' => foldM body acc' triples)).
    cbv beta.
    rewrite (bind_ok _ _ _ _ _ (dry_run_files_run _ _ acc s)).
    rewrite IH, fs_previewed.
    change (triple_paths (t :: triples))
      with (paths_in (fst (fst t)) (snd t) ++ triple_paths triples).
    now rewrite record_previews_app, previewed_app.
Qed.

Lemma os_walk_paths src s :
  triple_paths (match fs s !! src with Some n => walk src n | None => [] end)
  = py_files_at (fs s) src.
Proof.
  unfold py_files_at. destruct (fs s !! src); [apply triple_paths_walk|reflexivity].
Qed.

Lemma os_walk_run src s :
  os_walk src s
  = (Ok (match fs s !! src with Some n => walk src n | None => [] end), s).
Proof. reflexivity. Qed.

Lemma write_section_run entry s :
  write_section entry s
  = (Ok tt, set_fs (alter (append_text (entry_text entry)) changes_log (fs s)) s).
Proof. reflexivity. Qed.

(** The preview when the log can be opened. *)
Lemma dry_run_2to3_run src s :
  is_directory_at (fs s) changes_log = false ->
  dry_run_2to3 w src s
  = (Ok tt,
     set_fs (<[changes_log :=
                 File (changes_text w (fs s) (py_files_at (fs s) src))]> (fs s))
       (previewed w (py_files_at (fs s) src) s)).
Proof.
  intros Hlog. unfold dry_run_2to3.
  rewrite (bind_ok _ _ _ _ _ (os_walk_run src s)).
  rewrite (bind_ok _ _ _ _ _ (dry_run_walk_run _ [] s)).
  rewrite os_walk_paths.
  rewrite (bind_ok _ _ _ _ _
             (open_w_ok changes_log (previewed w (py_files_at (fs s) src) s) Hlog)).
  rewrite (for_each_write entry_text (fun _ => None) write_section changes_log
             write_section_run _ _ "" (lookup_insert_eq _ _ _)).
  f_equal. unfold changes_text.
  apply state_eq; simpl; try reflexivity.
  - now rewrite insert_insert_eq.
  - rewrite <- app_nil_r. f_equal.
    induction (record_previews w (fs s) [] (py_files_at (fs s) src));
      [reflexivity|assumption].
Qed.

(** The preview when a directory has the log's name: every call is made,
    then opening the log fails. *)
Lemma dry_run_2to3_refused src s :
  is_directory_at (fs s) changes_log = true ->
  dry_run_2to3 w src s
  = (Raise (IsADirectoryError changes_log),
     previewed w (py_files_at (fs s) src) s).
Proof.
  intros Hlog. unfold dry_run_2to3.
  rewrite (bind_ok _ _ _ _ _ (os_walk_run src s)).
  rewrite (bind_ok _ _ _ _ _ (dry_run_walk_run _ [] s)).
  rewrite os_walk_paths.
  apply bind_raise.
  apply (open_w_directory changes_log (previewed w (py_files_at (fs s) src) s) Hlog).
Qed.

Lemma dry_run_2to3_calls src s :
  calls (snd (dry_run_2to3 w src s))
  = calls s ++ map dry_run_call (py_files_at (fs s) src).
Proof.
  destruct (is_directory_at (fs s) changes_log) eqn:Hlog.
  - now rewrite dry_run_2to3_refused.
  - now rewrite dry_run_2to3_run.
Qed.

End DryRun.

(** ** The log of proposed changes *)

Lemma dict_set_fresh k v d :
  ~ In k (map fst d) -> dict_set k v d = d ++ [(k, v)].
Proof.
  induction d as [|[k' v'] d IH]; intros H; [reflexivity|].
  simpl in *. destruct (String.eqb_spec k k') as [->|Hne].
  - exfalso. apply H. now left.
  - rewrite IH; [reflexivity|]. intros Hin. apply H. now right.
Qed.

Lemma record_previews_nodup w f paths : forall acc,
  NoDup paths ->
  (forall p, In p paths -> ~ In p (map fst acc)) ->
  record_previews w f acc paths
  = acc ++ map (fun p => (p, output (preview w f p)))
               (List.filter (preview_ok w f) paths).
Proof.
  induction paths as [|p paths IH]; intros acc Hnd Hfresh.
  - simpl. now rewrite app_nil_r.
  - apply NoDup_cons in Hnd as [Hp Hnd].
    change (record_previews w f acc (p :: paths))
      with (record_previews w f
              (if preview_ok w f p
               then dict_set p (output (preview w f p)) acc else acc) paths).
    simpl List.filter. destruct (preview_ok w f p).
    + rewrite dict_set_fresh by (apply Hfresh; now left).
      rewrite IH; [now rewrite <- app_assoc|exact Hnd|].
      intros q Hq. rewrite map_app, in_app_iff. simpl.
      intros [Hin|[<-|[]]].
      * apply (Hfresh q); [now right|exact Hin].
      * apply Hp. now apply list_elem_of_In.
    + apply IH; [exact Hnd|]. intros q Hq. apply Hfresh. now right.
Qed.

Lemma changes_text_nodup w f paths :
  NoDup paths ->
  changes_text w f paths
  = Text.concat (map (section_text w f) (List.filter (preview_ok w f) paths)).
Proof.
  intros Hnd. unfold changes_text.
  rewrite record_previews_nodup by (auto; intros p _ []).
  simpl app. rewrite map_map. reflexivity.
Qed.

(** C8: the preview runs the tool on every [.py] file of the tree whether
    or not earlier files failed, logs one ERROR record for each file whose
    run exits with a status other than zero, ends normally, and leaves in
    changes_for_update.log one section, header then diff, for each file
    whose run succeeded and for no other, in walk order. *)
Theorem dry_run_log (w : World) (src : string) (s : state) :
  NoDup (py_files_at (fs s) src) ->
  is_directory_at (fs s) changes_log = false ->
  let paths := py_files_at (fs s) src in
  let run := dry_run_2to3 w src s in
  fst run = Ok tt
  /\ calls (snd run) = calls s ++ map dry_run_call paths
  /\ records (snd run)
     = records s
       ++ map (failure_record w (fs s)) (failed_previews w (fs s) paths)
  /\ fs (snd run)
     = <[changes_log :=
           File (Text.concat
                   (map (section_text w (fs s))
                        (List.filter (preview_ok w (fs s)) paths)))]> (fs s).
Proof.
  intros Hnd Hlog paths run. subst run paths.
  rewrite (dry_run_2to3_run w src s Hlog).
  repeat split. simpl. now rewrite changes_text_nodup.
Qed.

Lemma dry_run_log_witness :
  fs (snd (dry_run_2to3 Demo.w38 source_directory (Demo.start Demo.disk [])))
  = <[changes_log :=
        File ("Changes for path_to_source_directory/a.py:" +:+ nl
              +:+ "--- original" +:+ nl)]> Demo.disk
  /\ records (snd (dry_run_2to3 Demo.w38 source_directory
                     (Demo.start Demo.disk [])))
     = [(ERROR, "Error during dry run for path_to_source_directory/pkg/b.py: RefactoringTool: Can't parse")].
Proof.
  destruct (dry_run_log Demo.w38 source_directory (Demo.start Demo.disk []))
    as [_ [_ [Hrec Hfs]]].
  - apply (bool_decide_unpack _). vm_compute. exact I.
  - vm_compute. reflexivity.
  - split; [rewrite Hfs|rewrite Hrec]; vm_compute; reflexivity.
Defined.

(** ** From the dependency check to the prompt *)

Lemma calls_try_logged {A} (m : M A) (h : exn -> M A) s :
  (forall e, silent_run (h e)) ->
  calls (snd (try_except m is_Exception h s)) = calls (snd (m s)).
Proof.
  intros Hh. unfold try_except. destruct (m s) as [[a|e] s1]; [reflexivity|].
  simpl. apply Hh.
Qed.

Lemma fs_try_logged {A} (m : M A) (h : exn -> M A) s :
  (forall e, silent_run (h e)) ->
  fs (snd (try_except m is_Exception h s)) = fs (snd (m s)).
Proof.
  intros Hh. unfold try_except. destruct (m s) as [[a|e] s1]; [reflexivity|].
  simpl. apply Hh.
Qed.

Lemma dry_run_paths_app a b :
  dry_run_paths (a ++ b) = dry_run_paths a ++ dry_run_paths b.
Proof. apply omap_app. Qed.

Lemma dry_run_paths_calls paths : dry_run_paths (map dry_run_call paths) = paths.
Proof. induction paths as [|p l IH]; [reflexivity|]. simpl. now f_equal. Qed.

Lemma dry_run_paths_markers w deps : dry_run_paths (map (marker_call w) deps) = [].
Proof. induction deps as [|d l IH]; [reflexivity|exact IH]. Qed.

Lemma dry_run_paths_tail src dst tail :
  migration_tail src dst tail -> dry_run_paths tail = [].
Proof. intros [-> | [-> | ->]]; reflexivity. Qed.

Section Confirm.

Variable w : World.

Lemma preview_and_confirm_ok src dst s :
  fst (preview_and_confirm w src dst s) = Ok tt.
Proof.
  unfold preview_and_confirm, try_except.
  destruct (bind _ _ s) as [[[]|e] s1]; reflexivity.
Qed.

Lemma all_compatible_filter deps :
  Forall (fun d => verdict w d = Some true) deps ->
  List.filter (incompatible w) deps = [].
Proof.
  induction 1 as [|d l Hd _ IH]; [reflexivity|].
  simpl. unfold incompatible at 1. now rewrite Hd.
Qed.

Lemma all_compatible_judged deps :
  Forall (fun d => verdict w d = Some true) deps ->
  Forall (fun d => is_Some (verdict w d)) deps.
Proof.
  intros H. eapply Forall_impl; [exact H|]. intros d Hd. rewrite Hd. now eexists.
Qed.

(** With a version detected that is not 3.9 and every dependency judged
    compatible, [main] is the preview-and-confirm stage run from
    [at_preview]. *)
Lemma main_all_compatible src dst s v deps :
  detected w src s = Some v ->
  Text.startswith v "3.9" = false ->
  scanned w s = Some deps ->
  Forall (fun d => verdict w d = Some true) deps ->
  main w src dst s = preview_and_confirm w src dst (at_preview w src v deps s).
Proof.
  intros Hv H39 Hscan Hall.
  rewrite (main_detected w src dst s v Hv), H39.
  unfold check_dependencies, try_except.
  rewrite (bind_ok _ _ _ _ _
             (scan_dependencies_scanned w
                (add_record INFO _ (add_call (probe_call src) s)) deps Hscan)).
  unfold report_or_preview.
  rewrite (bind_ok _ _ _ _ _
             (foldM_collect w deps [] _ (all_compatible_judged deps Hall))).
  rewrite (all_compatible_filter deps Hall).
  change (@nil (string * string) ++ []) with (@nil (string * string)).
  cbv iota.
  rewrite (bind_ok _ _ _ _ _ (logger_info_run _ _)).
  fold (at_preview w src v deps s).
  pose proof (preview_and_confirm_ok src dst (at_preview w src v deps s)) as Hok.
  destruct (preview_and_confirm w src dst (at_preview w src v deps s))
    as [r s']. simpl in Hok. now subst r.
Qed.

Lemma input_line prompt s line rest :
  stdin s = line :: rest ->
  input prompt s = (Ok line, set_stdin rest (add_console prompt s)).
Proof. intros H. unfold input. now rewrite H. Qed.

Lemma confirm_and_update_read src dst s line rest :
  stdin s = line :: rest ->
  confirm_and_update w src dst s
  = (if String.eqb (Text.lower (Text.strip line)) "y" then
       update_to_python_3_9 w src dst >>
       logger_info "Update to Python 3.9 successful."
     else if String.eqb (Text.lower (Text.strip line)) "n" then
       logger_info "Update canceled."
     else logger_error "Invalid input. Update canceled.")
      (answered rest s).
Proof.
  intros H. unfold confirm_and_update.
  rewrite (bind_ok _ _ _ _ _ (logger_info_run _ _)).
  now rewrite (bind_ok _ _ _ _ _ (input_line _ (add_record INFO _ s) line rest H)).
Qed.

(** The executor always attempts the copy first; the rewrite in write mode
    follows only a copy that succeeded. *)
Lemma update_calls src dst s :
  exists tail,
    calls (snd ((update_to_python_3_9 w src dst >>
                 logger_info "Update to Python 3.9 successful.") s))
    = calls s ++ Copytree src dst :: tail
    /\ (tail = [] \/ tail = [write_call dst]).
Proof.
  unfold update_to_python_3_9, bind, copytree.
  destruct (fs s !! src) as [[d|es]|]; simpl;
    try (exists []; split; [reflexivity|now left]).
  destruct (fs s !! dst); simpl.
  - exists []. split; [reflexivity|now left].
  - exists [write_call dst]. split; [|now right].
    autorewrite with st. now rewrite <- app_assoc.
Qed.

(** From the prompt on, the only calls are those of the executor. *)
Lemma confirm_and_update_calls src dst s :
  exists tail,
    calls (snd (confirm_and_update w src dst s)) = calls s ++ tail
    /\ migration_tail src dst tail.
Proof.
  destruct (stdin s) as [|line rest] eqn:Hin.
  - exists []. split; [|now left].
    unfold confirm_and_update, bind, input. simpl. rewrite Hin. simpl.
    now rewrite app_nil_r.
  - rewrite (confirm_and_update_read src dst s line rest Hin).
    destruct (String.eqb (Text.lower (Text.strip line)) "y").
    + destruct (update_calls src dst (answered rest s)) as [tail [C T]].
      exists (Copytree src dst :: tail). split; [exact C|].
      destruct T as [-> | ->]; [right; now left|right; now right].
    + exists []. split; [|now left].
      destruct (String.eqb (Text.lower (Text.strip line)) "n"); simpl;
        now rewrite app_nil_r.
Qed.

Lemma preview_and_confirm_calls src dst s :
  exists tail,
    calls (snd (preview_and_confirm w src dst s))
    = calls s ++ map dry_run_call (py_files_at (fs s) src) ++ tail
    /\ migration_tail src dst tail.
Proof.
  unfold preview_and_confirm.
  rewrite calls_try_logged by (intros e; apply silent_logger_error).
  pose proof (dry_run_2to3_calls w src s) as Hd.
  unfold bind. destruct (dry_run_2to3 w src s) as [[[]|e] s1]; simpl in Hd.
  - destruct (confirm_and_update_calls src dst s1) as [tail [C T]].
    exists tail. split; [|exact T]. now rewrite C, Hd, <- app_assoc.
  - exists []. split; [|now left]. simpl. now rewrite app_nil_r.
Qed.

End Confirm.

(** C6: in a run where a version that is not 3.9 is detected, the scan
    succeeds and every dependency is judged compatible, the calls of the
    rewrite tool in no-write mode are, in walk order, one for each regular
    file below the source directory whose name ends in [.py], and no
    other; around them the run makes the probe, the scan, the marker
    evaluations and at most the calls of the executor. *)
Theorem dry_run_once_per_py_file (w : World) (src dst : string) (s : state)
    (v : string) (deps : list (string * string)) :
  detected w src s = Some v ->
  Text.startswith v "3.9" = false ->
  scanned w s = Some deps ->
  Forall (fun d => verdict w d = Some true) deps ->
  dry_run_paths (calls (snd (main w src dst s)))
  = dry_run_paths (calls s) ++ py_files_at (fs s) src
  /\ exists tail,
      calls (snd (main w src dst s))
      = calls s ++ probe_call src :: scanner_call :: map (marker_call w) deps
        ++ map dry_run_call (py_files_at (fs s) src) ++ tail
      /\ migration_tail src dst tail.
Proof.
  intros Hv H39 Hscan Hall.
  rewrite (main_all_compatible w src dst s v deps Hv H39 Hscan Hall).
  destruct (preview_and_confirm_calls w src dst (at_preview w src v deps s))
    as [tail [C T]].
  assert (Hcalls :
            calls (snd (preview_and_confirm w src dst (at_preview w src v deps s)))
            = calls s ++ probe_call src :: scanner_call :: map (marker_call w) deps
              ++ map dry_run_call (py_files_at (fs s) src) ++ tail).
  { rewrite C. simpl. now rewrite <- !app_assoc. }
  split; [|exists tail; now split].
  rewrite Hcalls.
  change (probe_call src :: scanner_call :: ?l)
    with ([probe_call src; scanner_call] ++ l).
  rewrite !dry_run_paths_app, dry_run_paths_markers, dry_run_paths_calls,
    (dry_run_paths_tail src dst tail T).
  simpl. now rewrite app_nil_r.
Qed.

Lemma dry_run_once_per_py_file_witness :
  dry_run_paths
    (calls (snd (main Demo.w38 source_directory destination_directory
                   (Demo.start Demo.disk ["n"]))))
  = ["path_to_source_directory/a.py"; "path_to_source_directory/pkg/b.py"].
Proof.
  apply (dry_run_once_per_py_file Demo.w38 source_directory
           destination_directory (Demo.start Demo.disk ["n"]) "3.8.10"
           [("Flask", "1.0.0"); ("six", "1.12.0")]).
  - vm_compute. reflexivity.
  - vm_compute. reflexivity.
  - vm_compute. reflexivity.
  - repeat constructor.
Defined.

(** ** The confirmation prompt *)

Section Prompt.

Variable w : World.


End Prompt.

(** ** The executor and an existing destination *)

(** The copy is refused whenever something exists at the destination: the
    executor raises, nothing is copied and the rewrite tool is not run. *)
Lemma update_refused_on_existing_destination (w : World) (src dst : string)
    (s : state) (n : node) :
  fs s !! dst = Some n ->
  exists e,
    update_to_python_3_9 w src dst s = (Raise e, add_call (Copytree src dst) s).
Proof.
  intros Hdst. unfold update_to_python_3_9, bind, copytree. rewrite Hdst.
  destruct (fs s !! src) as [[d|es]|]; eexists; reflexivity.
Qed.

(** On an absent destination the executor copies the source directory and
    then has the copy rewritten. *)
Lemma update_on_fresh_destination (w : World) (src dst : string) (s : state)
    (es : list (string * node)) :
  fs s !! src = Some (Dir es) ->
  fs s !! dst = None ->
  update_to_python_3_9 w src dst s
  = (Ok tt,
     set_fs (<[dst := rewrite w (Dir es)]> (fs s))
       (add_calls [Copytree src dst; write_call dst] s)).
Proof.
  intros Hsrc Hdst. unfold update_to_python_3_9, bind, copytree.
  rewrite Hsrc, Hdst. unfold run_2to3_write. f_equal.
  apply state_eq; simpl; try reflexivity.
  - now rewrite alter_insert_eq.
  - now rewrite <- app_assoc.
Qed.

(** C2, evaluated where the entry point lets a confirmed run start: both
    directories exist, the destination is empty, the version is 3.8.10,
    every dependency is compatible and the answer is "y".  The copy is
    refused because the destination exists: the run ends with an ERROR
    record, the destination is still empty, not a copy of the source, and
    the rewrite tool is never run in write mode. *)
Theorem confirmed_run_on_existing_destination :
  let run := program Demo.w38 (Demo.start Demo.disk ["y"]) in
  fst run = Ok tt
  /\ last (records (snd run))
     = Some (ERROR,
             "Error during update: [Errno 17] File exists: 'path_to_destination_directory'")
  /\ last (calls (snd run))
     = Some (Copytree source_directory destination_directory)
  /\ List.filter is_write_mode (calls (snd run)) = []
  /\ fs (snd run) !! destination_directory = Some (Dir [])
  /\ fs (snd run) !! source_directory = Some Demo.tree.
Proof. vm_compute. repeat split; reflexivity. Qed.

(** ** From the entry point nothing is ever migrated *)

Section Refused.

Variable dst : string.

Lemma is_directory_at_spec (f : gmap string node) p :
  is_directory_at f p = true <-> exists es, f !! p = Some (Dir es).
Proof.
  unfold is_directory_at. destruct (f !! p) as [[d|es]|]; split;
    try discriminate; try (intros [es' H]; discriminate); eauto.
Qed.

Lemma unwritten_step_directory s s' :
  unwritten_step dst s s' ->
  is_directory_at (fs s) dst = true -> is_directory_at (fs s') dst = true.
Proof.
  intros [F _] H. apply is_directory_at_spec in H as [es H].
  apply is_directory_at_spec. exists es. now apply F.
Qed.

Lemma unwritten_step_trans s1 s2 s3 :
  unwritten_step dst s1 s2 -> unwritten_step dst s2 s3 ->
  unwritten_step dst s1 s3.
Proof.
  intros [F1 [n1 [C1 Q1]]] [F2 [n2 [C2 Q2]]]. split; [auto|].
  exists (n1 ++ n2). split.
  - now rewrite C2, C1, app_assoc.
  - now apply Forall_app.
Qed.

Lemma quiet_unwritten_step s s' : quiet_step dst s s' -> unwritten_step dst s s'.
Proof.
  intros [F [new [C Q]]]. split; [exact F|]. exists new. split; [exact C|].
  eapply Forall_impl; [exact Q|]. intros e He. now apply quiet_spec in He.
Qed.

Lemma unwritten_of_quiet {A} (m : M A) :
  quiet_run dst m -> unwritten_run dst m.
Proof. intros H s _. apply quiet_unwritten_step, H. Qed.

Lemma unwritten_bind {A B} (m : M A) (k : A -> M B) :
  unwritten_run dst m -> (forall a, unwritten_run dst (k a)) ->
  unwritten_run dst (bind m k).
Proof.
  intros Hm Hk s Hd. specialize (Hm s Hd). unfold bind.
  destruct (m s) as [[a|e] s1]; simpl in Hm; [|exact Hm].
  eapply unwritten_step_trans; [exact Hm|].
  apply Hk. eapply unwritten_step_directory; eauto.
Qed.

Lemma unwritten_try {A} (m : M A) handles (h : exn -> M A) :
  unwritten_run dst m -> (forall e, unwritten_run dst (h e)) ->
  unwritten_run dst (try_except m handles h).
Proof.
  intros Hm Hh s Hd. specialize (Hm s Hd). unfold try_except.
  destruct (m s) as [[a|e] s1]; simpl in Hm; [exact Hm|].
  destruct (handles e); [|exact Hm].
  eapply unwritten_step_trans; [exact Hm|].
  apply Hh. eapply unwritten_step_directory; eauto.
Qed.

Variables (w : World) (src : string).

(** Where the destination is a directory the executor stops at the copy. *)
Lemma unwritten_update : unwritten_run dst (update_to_python_3_9 w src dst).
Proof.
  intros s Hd. apply is_directory_at_spec in Hd as [es Hd].
  destruct (update_refused_on_existing_destination w src dst s _ Hd)
    as [e He].
  rewrite He. split; [auto|].
  exists [Copytree src dst]. split; [reflexivity|now repeat constructor].
Qed.

Lemma unwritten_main : unwritten_run dst (main w src dst).
Proof.
  unfold main. apply unwritten_bind.
  - apply unwritten_of_quiet, quiet_try.
    + apply quiet_bind; [apply quiet_scan_python_version|]. intros v.
      apply quiet_bind; [apply silent_quiet, silent_logger_info|].
      intros _. apply quiet_ret.
    + intros e. apply quiet_bind; [apply silent_quiet, silent_logger_error|].
      intros _. apply quiet_ret.
  - intros [v|]; [|apply unwritten_of_quiet, quiet_ret].
    destruct (Text.startswith v "3.9");
      [apply unwritten_of_quiet, silent_quiet, silent_logger_info|].
    unfold check_dependencies. apply unwritten_try;
      [|intros e; apply unwritten_of_quiet, silent_quiet, silent_logger_error].
    apply unwritten_bind;
      [apply unwritten_of_quiet, quiet_scan_dependencies|]. intros deps.
    unfold report_or_preview. apply unwritten_bind.
    { apply unwritten_of_quiet, quiet_foldM. intros acc d.
      apply quiet_collect_incompatible. }
    intros [|d bad].
    + apply unwritten_bind;
        [apply unwritten_of_quiet, silent_quiet, silent_logger_info|].
      intros _. unfold preview_and_confirm. apply unwritten_try;
        [|intros e; apply unwritten_of_quiet, silent_quiet, silent_logger_error].
      apply unwritten_bind;
        [apply unwritten_of_quiet, quiet_dry_run_2to3|]. intros _.
      unfold confirm_and_update. apply unwritten_bind;
        [apply unwritten_of_quiet, silent_quiet, silent_logger_info|].
      intros _. apply unwritten_bind;
        [apply unwritten_of_quiet, quiet_input|]. intros line.
      destruct (String.eqb (Text.lower (Text.strip line)) "y").
      * apply unwritten_bind; [apply unwritten_update|]. intros _.
        apply unwritten_of_quiet, silent_quiet, silent_logger_info.
      * destruct (String.eqb (Text.lower (Text.strip line)) "n");
          apply unwritten_of_quiet, silent_quiet;
          [apply silent_logger_info|apply silent_logger_error].
    + apply unwritten_of_quiet.
      apply quiet_bind; [apply silent_quiet, silent_logger_info|]. intros _.
      apply quiet_bind; [apply quiet_open_w|]. intros _.
      apply quiet_bind;
        [apply quiet_for_each; intros x; apply quiet_write_concern|].
      intros _. apply silent_quiet, silent_logger_info.
Qed.

End Refused.

(** X7: whatever the tools answer and whatever is typed: started from the
    entry point with a directory at the destination path, the program never runs
    the rewrite tool in write mode and leaves the destination as it was.
    Without a destination the entry point stops at its check, so no run of
    the program copies or rewrites anything. *)
Lemma entry_point_never_migrates (w : World) (s : state)
    (es : list (string * node)) :
  fs s !! destination_directory = Some (Dir es) ->
  fs (snd (program w s)) !! destination_directory = Some (Dir es)
  /\ List.filter is_write_mode (calls (snd (program w s)))
     = List.filter is_write_mode (calls s).
Proof.
  intros Hdst.
  assert (Hstep : unwritten_step destination_directory s (snd (program w s))).
  { unfold program.
    destruct (fs s !! source_directory) as [n|] eqn:Hsrc.
    - rewrite (path_exists_some _ _ n _ Hsrc). cbv beta.
      change (negb true) with false. cbv iota.
      rewrite (path_exists_some _ _ _ _ Hdst). cbv beta.
      change (negb true) with false. cbv iota.
      unfold bind, setup_logging.
      eapply unwritten_step_trans;
        [|apply (unwritten_main destination_directory w source_directory);
          apply is_directory_at_spec; now exists es].
      now apply quiet_unwritten_step, quiet_step_same.
    - rewrite (path_exists_none _ _ _ Hsrc). cbv beta.
      change (negb false) with true. cbv iota.
      now apply quiet_unwritten_step, quiet_step_same. }
  destruct Hstep as [F [new [C Q]]]. split; [now apply F|].
  rewrite C, List.filter_app.
  assert (List.filter is_write_mode new = []) as ->; [|now rewrite app_nil_r].
  clear C. induction Q as [|e l He _ IH]; [reflexivity|].
  simpl. now rewrite He.
Qed.

Lemma entry_point_never_migrates_witness :
  fs (snd (program Demo.w38 (Demo.start Demo.disk ["y"])))
     !! destination_directory
  = Some (Dir []).
Proof.
  apply (entry_point_never_migrates Demo.w38 (Demo.start Demo.disk ["y"]) []).
  vm_compute. reflexivity.
Defined.

(** ** Failures inside the dependency check *)

Lemma check_dependencies_ok w src dst s :
  fst (check_dependencies w src dst s) = Ok tt.
Proof.
  unfold check_dependencies, try_except.
  destruct (bind _ _ s) as [[[]|e] s1]; reflexivity.
Qed.

Lemma bind_assoc {A B C} (m : M A) (k : A -> M B) (k' : B -> M C) s :
  bind (bind m k) k' s = bind m (fun a => bind (k a) k') s.
Proof. unfold bind. destruct (m s) as [[a|e] s1]; reflexivity. Qed.

Lemma foldM_app {A B} (body : B -> A -> M B) (a b : list A) : forall acc s,
  foldM body acc (a ++ b) s
  = bind (foldM body acc a) (fun acc' => foldM body acc' b) s.
Proof.
  induction a as [|x a IH]; intros acc s; [reflexivity|].
  simpl. rewrite bind_assoc. unfold bind at 1 2.
  destruct (body acc x s) as [[acc'|e] s1]; [apply IH|reflexivity].
Qed.

(** X2: when the dependency-tree tool exits with a status other than zero,
    [main] logs "Error during dependency scan:" with the failed command and
    its status, and returns; nothing is evaluated, previewed or written. *)
Theorem dependency_scan_failure (w : World) (src dst : string) (s : state)
    (v : string) :
  detected w src s = Some v ->
  Text.startswith v "3.9" = false ->
  returncode (exec w ["pipdeptree"; "-w"] None (fs s)) <> 0%N ->
  main w src dst s
  = (Ok tt,
     add_record ERROR
       ("Error during dependency scan: Command '['pipdeptree', '-w']' returned non-zero exit status "
        +:+ Text.decimal (returncode (exec w ["pipdeptree"; "-w"] None (fs s)))
        +:+ ".")
       (add_call scanner_call
          (add_record INFO ("Detected Python version: " +:+ v)
             (add_call (probe_call src) s)))).
Proof.
  intros Hv H39 Hrc.
  rewrite (main_detected w src dst s v Hv), H39.
  pose proof (bind_raise _ (fun out =>
                ret (map as_pair (Re.findall dependency_pattern out))) _ _ _
                (check_output_fail w _ None
                   (add_record INFO ("Detected Python version: " +:+ v)
                      (add_call (probe_call src) s)) eq_refl Hrc)) as Hs.
  unfold check_dependencies.
  now rewrite (try_caught _ _ _ _ _ _ (bind_raise _ _ _ _ _ Hs) eq_refl).
Qed.

Lemma dependency_scan_failure_witness :
  main Edge.w_scan_failed source_directory destination_directory
       (Demo.start Demo.disk ["y"])
  = (Ok tt,
     add_record ERROR
       "Error during dependency scan: Command '['pipdeptree', '-w']' returned non-zero exit status 2."
       (add_call scanner_call
          (add_record INFO "Detected Python version: 3.8.10"
             (add_call (probe_call source_directory)
                (Demo.start Demo.disk ["y"]))))).
Proof.
  apply (dependency_scan_failure Edge.w_scan_failed source_directory
           destination_directory (Demo.start Demo.disk ["y"]) "3.8.10").
  - vm_compute. reflexivity.
  - vm_compute. reflexivity.
  - vm_compute. discriminate.
Defined.

(** X3: when the marker evaluator raises on a dependency, the loop stops
    there: the dependencies after it are not evaluated, [main] logs "Error
    during dependency scan:" with the exception's text and returns, and no
    file is written, so the incompatible dependencies found before it are
    not reported. *)
Theorem evaluator_exception_stops_check (w : World) (src dst : string)
    (s : state) (v : string) (before : list (string * string))
    (dep : string * string) (after : list (string * string)) (e : exn) :
  detected w src s = Some v ->
  Text.startswith v "3.9" = false ->
  scanned w s = Some (before ++ dep :: after) ->
  Forall (fun d => is_Some (verdict w d)) before ->
  interpret w (default_environment w) (requirement dep) = Raise e ->
  main w src dst s
  = (Ok tt,
     add_record ERROR ("Error during dependency scan: " +:+ str_exn e)
       (add_call (marker_call w dep)
          (add_calls (map (marker_call w) before)
             (add_call scanner_call
                (add_record INFO ("Detected Python version: " +:+ v)
                   (add_call (probe_call src) s)))))).
Proof.
  intros Hv H39 Hscan Hbefore Hraise.
  rewrite (main_detected w src dst s v Hv), H39.
  unfold check_dependencies.
  rewrite (try_caught _ _ _ _ e
             (add_call (marker_call w dep)
                (add_calls (map (marker_call w) before)
                   (add_call scanner_call
                      (add_record INFO ("Detected Python version: " +:+ v)
                         (add_call (probe_call src) s)))))); [reflexivity| |reflexivity].
  rewrite (bind_ok _ _ _ _ _
             (scan_dependencies_scanned w
                (add_record INFO _ (add_call (probe_call src) s)) _ Hscan)).
  unfold report_or_preview. apply bind_raise.
  rewrite foldM_app.
  rewrite (bind_ok _ _ _ _ _ (foldM_collect w before [] _ Hbefore)).
  change (foldM (collect_incompatible w) ?acc (dep :: after))
    with (bind (collect_incompatible w acc dep)
            (fun acc' => foldM (collect_incompatible w) acc' after)).
  apply bind_raise. unfold collect_incompatible. apply bind_raise.
  rewrite is_compatible_run. fold (requirement dep). now rewrite Hraise.
Qed.

Lemma evaluator_exception_stops_check_witness :
  fs (snd (main Edge.w_six_raises source_directory destination_directory
             (Demo.start Demo.disk ["y"])))
  = Demo.disk
  /\ last (records (snd (main Edge.w_six_raises source_directory
                           destination_directory (Demo.start Demo.disk ["y"]))))
     = Some (ERROR, "Error during dependency scan: bad marker").
Proof.
  rewrite (evaluator_exception_stops_check Edge.w_six_raises source_directory
             destination_directory (Demo.start Demo.disk ["y"]) "3.8.10"
             [("Flask", "1.0.0")] ("six", "1.12.0") [] (OtherError "bad marker")).
  - split; reflexivity.
  - vm_compute. reflexivity.
  - vm_compute. reflexivity.
  - vm_compute. reflexivity.
  - repeat constructor. eexists. vm_compute. reflexivity.
  - vm_compute. reflexivity.
Defined.

(** ** Edges of the preview, the prompt and the update *)

(** X4: when standard input is at its end at the prompt, [input] raises:
    [main] logs "Error during update: EOF when reading a line" and returns;
    the prompt has been printed, the previews have run, nothing is copied
    and no path but the changes log differs from the start. *)
Theorem prompt_end_of_input (w : World) (src dst : string) (s : state)
    (v : string) (deps : list (string * string)) :
  detected w src s = Some v ->
  Text.startswith v "3.9" = false ->
  scanned w s = Some deps ->
  Forall (fun d => verdict w d = Some true) deps ->
  is_directory_at (fs s) changes_log = false ->
  stdin s = [] ->
  let run := main w src dst s in
  fst run = Ok tt
  /\ last (records (snd run))
     = Some (ERROR, "Error during update: EOF when reading a line")
  /\ console (snd run)
     = console s ++ ["Enter 'Y' to proceed with the update or 'N' to cancel: "]
  /\ calls (snd run)
     = calls s ++ probe_call src :: scanner_call :: map (marker_call w) deps
       ++ map dry_run_call (py_files_at (fs s) src)
  /\ forall p, p <> changes_log -> fs (snd run) !! p = fs s !! p.
Proof.
  intros Hv H39 Hscan Hall Hlog Hin run. subst run.
  rewrite (main_all_compatible w src dst s v deps Hv H39 Hscan Hall).
  pose proof (dry_run_2to3_run w src (at_preview w src v deps s) Hlog) as Hdry.
  unfold preview_and_confirm, try_except.
  rewrite (bind_ok _ _ _ _ _ Hdry).
  unfold confirm_and_update, bind, logger_info, input. simpl.
  rewrite Hin. simpl. repeat split.
  - apply last_snoc.
  - now rewrite <- !app_assoc.
  - intros p Hp. now rewrite lookup_insert_ne.
Qed.

Lemma prompt_end_of_input_witness :
  last (records (snd (main Demo.w38 source_directory destination_directory
                        (Demo.start Demo.disk []))))
  = Some (ERROR, "Error during update: EOF when reading a line").
Proof.
  apply (prompt_end_of_input Demo.w38 source_directory destination_directory
           (Demo.start Demo.disk []) "3.8.10"
           [("Flask", "1.0.0"); ("six", "1.12.0")]).
  - vm_compute. reflexivity.
  - vm_compute. reflexivity.
  - vm_compute. reflexivity.
  - repeat constructor.
  - vm_compute. reflexivity.
  - reflexivity.
Defined.

(** X5: when changes_for_update.log cannot be opened because a directory
    has that name, every preview has already run and its failures are
    logged; [main] then logs "Error during update: [Errno 21] Is a
    directory: 'changes_for_update.log'" and returns without showing the
    prompt, reading input, copying or changing any file. *)
Theorem changes_log_refused (w : World) (src dst : string) (s : state)
    (v : string) (deps : list (string * string)) :
  detected w src s = Some v ->
  Text.startswith v "3.9" = false ->
  scanned w s = Some deps ->
  Forall (fun d => verdict w d = Some true) deps ->
  is_directory_at (fs s) changes_log = true ->
  let run := main w src dst s in
  fst run = Ok tt
  /\ last (records (snd run))
     = Some (ERROR,
             "Error during update: [Errno 21] Is a directory: 'changes_for_update.log'")
  /\ calls (snd run)
     = calls s ++ probe_call src :: scanner_call :: map (marker_call w) deps
       ++ map dry_run_call (py_files_at (fs s) src)
  /\ console (snd run) = console s
  /\ stdin (snd run) = stdin s
  /\ fs (snd run) = fs s.
Proof.
  intros Hv H39 Hscan Hall Hlog run. subst run.
  rewrite (main_all_compatible w src dst s v deps Hv H39 Hscan Hall).
  pose proof (dry_run_2to3_refused w src (at_preview w src v deps s) Hlog)
    as Hdry.
  unfold preview_and_confirm.
  rewrite (try_caught _ _ _ _ _ _ (bind_raise _ _ _ _ _ Hdry) eq_refl).
  simpl. repeat split.
  - apply last_snoc.
  - now rewrite <- !app_assoc.
Qed.

Lemma changes_log_refused_witness :
  fs (snd (main Demo.w38 source_directory destination_directory
             (Demo.start Edge.disk_log_is_directory ["y"])))
  = Edge.disk_log_is_directory.
Proof.
  apply (changes_log_refused Demo.w38 source_directory destination_directory
           (Demo.start Edge.disk_log_is_directory ["y"]) "3.8.10"
           [("Flask", "1.0.0"); ("six", "1.12.0")]).
  - vm_compute. reflexivity.
  - vm_compute. reflexivity.
  - vm_compute. reflexivity.
  - repeat constructor.
  - vm_compute. reflexivity.
Defined.


(** ** The paths a run may change *)

Section Confined.

Variable keys : list string.

Lemma untouched_refl s : untouched_outside keys s s.
Proof. intros p _. reflexivity. Qed.

Lemma untouched_trans s1 s2 s3 :
  untouched_outside keys s1 s2 -> untouched_outside keys s2 s3 ->
  untouched_outside keys s1 s3.
Proof. intros H1 H2 p Hp. now rewrite H2, H1. Qed.

Lemma untouched_same s s' : fs s' = fs s -> untouched_outside keys s s'.
Proof. intros H p _. now rewrite H. Qed.

Lemma confined_ret {A} (a : A) : confined keys (ret a).
Proof. intros s. apply untouched_refl. Qed.

Lemma confined_bind {A B} (m : M A) (k : A -> M B) :
  confined keys m -> (forall a, confined keys (k a)) ->
  confined keys (bind m k).
Proof.
  intros Hm Hk s. specialize (Hm s). unfold bind.
  destruct (m s) as [[a|e] s1]; simpl in Hm; [|exact Hm].
  eapply untouched_trans; [exact Hm|apply Hk].
Qed.

Lemma confined_try {A} (m : M A) handles (h : exn -> M A) :
  confined keys m -> (forall e, confined keys (h e)) ->
  confined keys (try_except m handles h).
Proof.
  intros Hm Hh s. specialize (Hm s). unfold try_except.
  destruct (m s) as [[a|e] s1]; simpl in Hm; [exact Hm|].
  destruct (handles e); [|exact Hm].
  eapply untouched_trans; [exact Hm|apply Hh].
Qed.

Lemma confined_foldM {A B} (body : B -> A -> M B) :
  (forall acc x, confined keys (body acc x)) ->
  forall l acc, confined keys (foldM body acc l).
Proof.
  intros Hb l. induction l as [|x l IH]; intros acc.
  - apply confined_ret.
  - apply confined_bind; [apply Hb|]. intros a. apply IH.
Qed.

Lemma confined_for_each {A} (body : A -> M unit) :
  (forall x, confined keys (body x)) ->
  forall l, confined keys (for_each body l).
Proof.
  intros Hb l. induction l as [|x l IH].
  - apply confined_ret.
  - apply confined_bind; [apply Hb|]. intros _. exact IH.
Qed.

Lemma confined_silent {A} (m : M A) : silent_run m -> confined keys m.
Proof. intros H s. apply untouched_same, H. Qed.

Lemma confined_check_output w argv cwd : confined keys (check_output w argv cwd).
Proof.
  intros s. unfold check_output.
  destruct (spawn_error cwd (fs s)); [apply untouched_refl|].
  destruct (returncode (exec w argv cwd (fs s)) =? 0)%N;
    now apply untouched_same.
Qed.

Lemma confined_input prompt : confined keys (input prompt).
Proof.
  intros s. unfold input. destruct (stdin s); now apply untouched_same.
Qed.

Lemma confined_open_w p : In p keys -> confined keys (open_w p).
Proof.
  intros Hin s. unfold open_w.
  destruct (fs s !! p) as [[d|es]|]; try apply untouched_refl;
    intros q Hq; simpl; rewrite lookup_insert_ne; congruence.
Qed.

Lemma confined_file_write p text : In p keys -> confined keys (file_write p text).
Proof.
  intros Hin s q Hq. simpl. rewrite lookup_alter_ne; congruence.
Qed.

Lemma confined_copytree src dst : In dst keys -> confined keys (copytree src dst).
Proof.
  intros Hin s. unfold copytree.
  destruct (fs s !! src) as [[d|es]|]; try now apply untouched_same.
  destruct (fs s !! dst); [now apply untouched_same|].
  intros q Hq. simpl. rewrite lookup_insert_ne; congruence.
Qed.

Lemma confined_run_2to3_write w dst :
  In dst keys -> confined keys (run_2to3_write w dst).
Proof.
  intros Hin s q Hq. simpl. rewrite lookup_alter_ne; congruence.
Qed.

End Confined.

Lemma confined_dry_run_2to3 w keys src :
  In changes_log keys -> confined keys (dry_run_2to3 w src).
Proof.
  intros Hin. unfold dry_run_2to3.
  apply confined_bind; [intros s; apply untouched_refl|]. intros tree.
  apply confined_bind.
  - apply confined_foldM. intros acc triple. apply confined_foldM.
    intros acc' name. unfold dry_run_file.
    destruct (Text.endswith name ".py"); [|apply confined_ret].
    apply confined_try.
    + apply confined_bind; [apply confined_check_output|].
      intros out. apply confined_ret.
    + intros e. apply confined_bind;
        [apply confined_silent, silent_logger_error|].
      intros _. apply confined_ret.
  - intros proposed. apply confined_bind; [now apply confined_open_w|].
    intros _. apply confined_for_each. intros entry.
    now apply confined_file_write.
Qed.

Lemma confined_main w src dst :
  confined [changes_log; concerns_log; dst] (main w src dst).
Proof.
  set (keys := [changes_log; concerns_log; dst]).
  assert (Hc : In changes_log keys) by (left; reflexivity).
  assert (Hn : In concerns_log keys) by (right; left; reflexivity).
  assert (Hd : In dst keys) by (right; right; left; reflexivity).
  unfold main. apply confined_bind.
  - apply confined_try.
    + apply confined_bind.
      * unfold scan_python_version. apply confined_try.
        -- apply confined_bind; [apply confined_check_output|].
           intros out. destruct (Re.search version_pattern out) as [[|v l]|];
             first [apply confined_ret | intros s; apply untouched_refl].
        -- intros e s. apply untouched_refl.
      * intros v. apply confined_bind;
          [apply confined_silent, silent_logger_info|].
        intros _. apply confined_ret.
    + intros e. apply confined_bind;
        [apply confined_silent, silent_logger_error|].
      intros _. apply confined_ret.
  - intros [v|]; [|apply confined_ret].
    destruct (Text.startswith v "3.9");
      [apply confined_silent, silent_logger_info|].
    unfold check_dependencies. apply confined_try;
      [|intros e; apply confined_silent, silent_logger_error].
    apply confined_bind.
    { unfold scan_dependencies. apply confined_bind;
        [apply confined_check_output|]. intros out. apply confined_ret. }
    intros deps. unfold report_or_preview. apply confined_bind.
    { apply confined_foldM. intros acc d. unfold collect_incompatible.
      apply confined_bind.
      - intros s. now apply untouched_same.
      - intros val. destruct (negb (truthy val)); apply confined_ret. }
    intros [|d bad].
    + apply confined_bind; [apply confined_silent, silent_logger_info|].
      intros _. unfold preview_and_confirm. apply confined_try;
        [|intros e; apply confined_silent, silent_logger_error].
      apply confined_bind; [now apply confined_dry_run_2to3|]. intros _.
      unfold confirm_and_update.
      apply confined_bind; [apply confined_silent, silent_logger_info|].
      intros _. apply confined_bind; [apply confined_input|]. intros line.
      destruct (String.eqb (Text.lower (Text.strip line)) "y").
      * apply confined_bind; [|intros _; apply confined_silent, silent_logger_info].
        unfold update_to_python_3_9. apply confined_bind;
          [now apply confined_copytree|].
        intros _. now apply confined_run_2to3_write.
      * destruct (String.eqb (Text.lower (Text.strip line)) "n");
          apply confined_silent;
          [apply silent_logger_info|apply silent_logger_error].
    + apply confined_bind; [apply confined_silent, silent_logger_info|].
      intros _. apply confined_bind; [now apply confined_open_w|].
      intros _. apply confined_bind.
      * apply confined_for_each. intros x. unfold write_concern.
        apply confined_bind; [now apply confined_file_write|].
        intros _. apply confined_silent, silent_logger_info.
      * intros _. apply confined_silent, silent_logger_info.
Qed.


(** ** What the two patterns extract *)

Lemma string_length_app (a b : string) :
  String.length (a +:+ b) = String.length a + String.length b.
Proof.
  induction a as [|c a IH]; [reflexivity|].
  rewrite string_app_cons. simpl. now rewrite IH.
Qed.

Lemma substring_app_l (a b : string) :
  substring 0 (String.length a) (a +:+ b) = a.
Proof.
  induction a as [|c a IH].
  - simpl. now destruct b.
  - rewrite string_app_cons. simpl. now rewrite IH.
Qed.

Lemma consumed_app (a b : string) : Re.consumed (a +:+ b) b = a.
Proof.
  unfold Re.consumed. rewrite string_length_app.
  replace (String.length a + String.length b - String.length b)
    with (String.length a) by lia.
  apply substring_app_l.
Qed.

Lemma drop_app (a b : string) : Text.drop (String.length a) (a +:+ b) = b.
Proof.
  induction a as [|c a IH]; [now destruct b|].
  rewrite string_app_cons. exact IH.
Qed.

Lemma prefix_split (l s : string) :
  String.prefix l s = true -> s = l +:+ Text.drop (String.length l) s.
Proof.
  revert s. induction l as [|c l IH]; intros s H; [now destruct s|].
  destruct s as [|c' s]; [discriminate|]. simpl in H.
  destruct (ascii_dec c c') as [->|]; [|discriminate].
  rewrite string_app_cons. simpl Text.drop. now rewrite <- IH.
Qed.

Lemma prefix_app (l r : string) : String.prefix l (l +:+ r) = true.
Proof.
  induction l as [|c l IH]; [now destruct r|].
  rewrite string_app_cons. simpl.
  destruct (ascii_dec c c); [exact IH|congruence].
Qed.

Lemma run_of_single cls c : cls c = true -> run_of cls (String c "") = true.
Proof. intros H. unfold run_of, all_in. simpl. now rewrite H. Qed.

Lemma run_of_grow cls c (run : string) :
  cls c = true -> run_of cls run = true -> run_of cls (String c run) = true.
Proof.
  unfold run_of, all_in. intros Hc H. apply andb_prop in H as [_ H].
  simpl. now rewrite Hc, H.
Qed.

(** What [class]+ consumed when the rest of the pattern succeeded. *)
Lemma plus_greedy_inv {X} cls (s : string) (k : string -> option X) x :
  Re.plus_greedy cls s k = Some x ->
  exists run rest,
    s = run +:+ rest /\ run_of cls run = true /\ k rest = Some x.
Proof.
  induction s as [|c s IH]; [discriminate|]. simpl.
  destruct (cls c) eqn:Hc; [|discriminate].
  destruct (Re.plus_greedy cls s k) as [y|] eqn:Hrec.
  - intros H. injection H as ->.
    destruct (IH eq_refl) as [run [rest [-> [Hrun Hk]]]].
    exists (String c run), rest. repeat split; [|exact Hk].
    now apply run_of_grow.
  - intros Hk. exists (String c ""), s. repeat split; [|exact Hk].
    now apply run_of_single.
Qed.

Lemma search_inv r (s : string) caps :
  Re.search r s = Some caps ->
  exists before at_match rest,
    s = before +:+ at_match /\ Re.match_at r at_match = Some (rest, caps).
Proof.
  induction s as [|c s IH]; simpl.
  - destruct (Re.match_at r "") as [[rest caps']|] eqn:Hm; [|discriminate].
    intros H. injection H as ->. now exists "", "", rest.
  - destruct (Re.match_at r (String c s)) as [[rest caps']|] eqn:Hm.
    + intros H. injection H as ->. now exists "", (String c s), rest.
    + intros H. destruct (IH H) as [before [at_match [rest [-> Hm']]]].
      now exists (String c before), at_match, rest.
Qed.

(** A match of the version pattern: the literal, then three runs of digits
    separated by dots, which together are the group. *)
Lemma match_version_inv (s rest : string) caps :
  Re.match_at version_pattern s = Some (rest, caps) ->
  exists a b c,
    caps = [a +:+ "." +:+ b +:+ "." +:+ c]
    /\ s = "Python " +:+ (a +:+ "." +:+ b +:+ "." +:+ c) +:+ rest
    /\ run_of Re.digit a = true /\ run_of Re.digit b = true
    /\ run_of Re.digit c = true.
Proof.
  unfold Re.match_at, version_pattern. cbn [Re.rmatch].
  destruct (String.prefix "Python " s) eqn:Hp; [|discriminate].
  apply prefix_split in Hp.
  set (s1 := Text.drop (String.length "Python ") s) in *.
  intros H.
  apply plus_greedy_inv in H as [a [s2 [Hs1 [Ha H]]]].
  destruct (String.prefix "." s2) eqn:Hp2; [|discriminate].
  apply prefix_split in Hp2.
  apply plus_greedy_inv in H as [b [s3' [Hs2 [Hb H]]]].
  destruct (String.prefix "." s3') eqn:Hp3; [|discriminate].
  apply prefix_split in Hp3.
  apply plus_greedy_inv in H as [c [s4 [Hs3 [Hc H]]]].
  injection H as <- <-.
  assert (Hall : s1 = (a +:+ "." +:+ b +:+ "." +:+ c) +:+ s4).
  { rewrite Hs1, Hp2, Hs2, Hp3, Hs3. now rewrite !string_app_assoc. }
  exists a, b, c. repeat split; try assumption.
  - rewrite Hall at 1. now rewrite consumed_app.
  - rewrite Hp. now rewrite Hall.
Qed.

(** X9: a version the probe returns is always three non-empty runs of
    decimal digits separated by dots, and it stands in the interpreter's
    output right after the text "Python ". *)
Theorem probed_version_shape (w : World) (src : string) (s : state)
    (v : string) :
  fst (scan_python_version w src s) = Ok v ->
  exists a b c before rest,
    v = a +:+ "." +:+ b +:+ "." +:+ c
    /\ run_of Re.digit a = true /\ run_of Re.digit b = true
    /\ run_of Re.digit c = true
    /\ output (exec w ["python"; "--version"] (Some src) (fs s))
       = before +:+ "Python " +:+ v +:+ rest.
Proof.
  unfold scan_python_version, try_except, bind, check_output.
  destruct (spawn_error (Some src) (fs s)) as [e|];
    [simpl; destruct (is_CalledProcessError e); discriminate|].
  destruct (returncode _ =? 0)%N; [|discriminate].
  destruct (Re.search version_pattern _) as [[|v' l]|] eqn:Hs;
    try discriminate.
  simpl. intros H. injection H as ->.
  apply search_inv in Hs as [before [at_match [rest [Hout Hm]]]].
  apply match_version_inv in Hm as [a [b [c [Hcaps [Hat [Ha [Hb Hc]]]]]]].
  injection Hcaps as -> ->.
  exists a, b, c, before, rest. repeat split; try assumption.
  rewrite Hout, Hat. reflexivity.
Qed.

Lemma probed_version_shape_witness :
  exists a b c before rest,
    "3.8.10" = a +:+ "." +:+ b +:+ "." +:+ c
    /\ run_of Re.digit a = true /\ run_of Re.digit b = true
    /\ run_of Re.digit c = true
    /\ output (exec Demo.w38 ["python"; "--version"] (Some source_directory)
                 (fs (Demo.start Demo.disk [])))
       = before +:+ "Python " +:+ "3.8.10" +:+ rest.
Proof.
  apply (probed_version_shape Demo.w38 source_directory
           (Demo.start Demo.disk []) "3.8.10").
  vm_compute. reflexivity.
Defined.

(** A match of the dependency pattern: a run of name characters, the two
    equal signs, a run of version characters; the runs are the groups. *)
Lemma match_dependency_inv (s rest : string) caps :
  Re.match_at dependency_pattern s = Some (rest, caps) ->
  exists name version,
    caps = [name; version]
    /\ s = name +:+ "==" +:+ version +:+ rest
    /\ run_of name_char name = true /\ run_of version_char version = true.
Proof.
  unfold Re.match_at, dependency_pattern. cbn [Re.rmatch]. intros H.
  apply plus_greedy_inv in H as [name [s1 [Hs [Hname H]]]].
  destruct (String.prefix "==" s1) eqn:Hp; [|discriminate].
  apply prefix_split in Hp.
  apply plus_greedy_inv in H as [version [s2 [Hs1 [Hversion H]]]].
  injection H as <- <-.
  exists name, version. repeat split; try assumption.
  - rewrite Hs at 1. rewrite consumed_app. rewrite Hs1 at 1.
    now rewrite consumed_app.
  - rewrite Hs, Hp, Hs1. reflexivity.
Qed.

Lemma findall_from_forall r (P : list string -> Prop) :
  (forall s rest caps, Re.match_at r s = Some (rest, caps) -> P caps) ->
  forall s skip, Forall P (Re.findall_from r s skip).
Proof.
  intros HP s. induction s as [|c s IH]; intros [|n]; simpl;
    try constructor; try apply IH.
  - destruct (Re.match_at r "") as [[rest caps]|] eqn:Hm; constructor;
      [eapply HP; eauto|constructor].
  - destruct (Re.match_at r (String c s)) as [[rest caps]|] eqn:Hm;
      [constructor; [eapply HP; eauto|apply IH]|apply IH].
Qed.

(** X10: every dependency the scanner returns has a non-empty name made of
    letters, digits, underscores and hyphens, and a non-empty version made
    of digits and dots; text that is not of that form never yields a
    pair. *)
Theorem scanned_dependencies_well_formed (w : World) (s : state)
    (deps : list (string * string)) :
  fst (scan_dependencies w s) = Ok deps ->
  Forall (fun d => well_formed_dep d = true) deps.
Proof.
  unfold scan_dependencies, bind, check_output. simpl.
  destruct (returncode _ =? 0)%N; [|discriminate].
  simpl. intros H. injection H as <-.
  apply Forall_map.
  apply (findall_from_forall dependency_pattern
           (fun caps => well_formed_dep (as_pair caps) = true)).
  intros t rest caps Hm.
  apply match_dependency_inv in Hm as [name [version [-> [_ [Hn Hv]]]]].
  unfold well_formed_dep. simpl. now rewrite Hn, Hv.
Qed.

Lemma scanned_dependencies_well_formed_witness :
  Forall (fun d => well_formed_dep d = true)
         [("Flask", "1.0.0"); ("six", "1.12.0")].
Proof.
  apply (scanned_dependencies_well_formed Demo.w38 (Demo.start Demo.disk [])).
  vm_compute. reflexivity.
Defined.

(** ** Reading back what the report writes *)

Lemma run_of_inv cls c (run : string) :
  run_of cls (String c run) = true ->
  cls c = true /\ (run = "" \/ run_of cls run = true).
Proof.
  unfold run_of, all_in. simpl. intros H. apply andb_prop in H as [Hc H].
  split; [exact Hc|]. destruct run as [|c' run]; [now left|right].
  simpl in *. exact H.
Qed.

Lemma plus_greedy_stops {X} cls (rest : string) (k : string -> option X) :
  stops cls rest = true -> Re.plus_greedy cls rest k = None.
Proof.
  destruct rest as [|c rest]; [reflexivity|]. simpl.
  now destruct (cls c).
Qed.

(** [class]+ before a character outside the class takes the whole run when
    the rest of the pattern then succeeds. *)
Lemma plus_greedy_longest {X} cls (run rest : string)
    (k : string -> option X) x :
  run_of cls run = true -> stops cls rest = true -> k rest = Some x ->
  Re.plus_greedy cls (run +:+ rest) k = Some x.
Proof.
  intros Hrun Hstop Hk. induction run as [|c run IH]; [discriminate|].
  apply run_of_inv in Hrun as [Hc [->|Hrun]].
  - simpl. rewrite Hc.
    change ("" +:+ rest) with rest.
    now rewrite (plus_greedy_stops cls rest k Hstop).
  - rewrite string_app_cons. simpl. rewrite Hc. now rewrite (IH Hrun).
Qed.

Lemma match_dependency_line (name version rest : string) :
  run_of name_char name = true ->
  run_of version_char version = true ->
  stops version_char rest = true ->
  Re.match_at dependency_pattern (name +:+ "==" +:+ version +:+ rest)
  = Some (rest, [name; version]).
Proof.
  intros Hn Hv Hstop. unfold Re.match_at, dependency_pattern.
  cbn [Re.rmatch].
  apply plus_greedy_longest; [exact Hn|reflexivity|].
  cbv beta. rewrite prefix_app, drop_app.
  apply plus_greedy_longest; [exact Hv|exact Hstop|].
  now rewrite !consumed_app.
Qed.

Lemma findall_from_skip r (t u : string) :
  Re.findall_from r (t +:+ u) (String.length t) = Re.findall_from r u 0.
Proof.
  induction t as [|c t IH]; [reflexivity|].
  rewrite string_app_cons. simpl. exact IH.
Qed.

Lemma findall_from_match r c (s' rest : string) caps :
  Re.match_at r (String c s') = Some (rest, caps) ->
  Re.findall_from r (String c s') 0
  = caps :: Re.findall_from r s'
              (String.length (String c s') - String.length rest - 1).
Proof. intros H. simpl. now rewrite H. Qed.

Lemma findall_from_newline (more : string) :
  Re.findall_from dependency_pattern (nl +:+ more) 0
  = Re.findall_from dependency_pattern more 0.
Proof. reflexivity. Qed.

Lemma findall_from_line (name version more : string) :
  run_of name_char name = true ->
  run_of version_char version = true ->
  Re.findall_from dependency_pattern
    (name +:+ "==" +:+ version +:+ nl +:+ more) 0
  = [name; version] :: Re.findall_from dependency_pattern more 0.
Proof.
  intros Hn Hv.
  pose proof (match_dependency_line name version (nl +:+ more) Hn Hv eq_refl)
    as Hm.
  destruct name as [|c name]; [discriminate|].
  rewrite (string_app_cons c name) in Hm |- *.
  rewrite (findall_from_match _ _ _ _ _ Hm). f_equal.
  replace (String.length (String c (name +:+ "==" +:+ version +:+ nl +:+ more))
           - String.length (nl +:+ more) - 1)
    with (String.length (name +:+ "==" +:+ version)).
  - replace (name +:+ "==" +:+ version +:+ nl +:+ more)
      with ((name +:+ "==" +:+ version) +:+ nl +:+ more)
      by now rewrite !string_app_assoc.
    rewrite findall_from_skip. apply findall_from_newline.
  - change (String.length (String c ?x)) with (S (String.length x)).
    rewrite !string_length_app. lia.
Qed.

Lemma findall_concerns_text (deps : list (string * string)) :
  Forall (fun d => well_formed_dep d = true) deps ->
  Re.findall dependency_pattern (concerns_text deps)
  = map (fun d => [fst d; snd d]) deps.
Proof.
  unfold Re.findall. induction 1 as [|[name version] deps Hd _ IH];
    [reflexivity|].
  unfold well_formed_dep in Hd. apply andb_prop in Hd as [Hn Hv].
  simpl in Hn, Hv.
  change (concerns_text ((name, version) :: deps))
    with (((name +:+ "==" +:+ version) +:+ nl) +:+ concerns_text deps).
  rewrite !string_app_assoc.
  rewrite (findall_from_line name version (concerns_text deps) Hn Hv).
  simpl. now rewrite IH.
Qed.

(** X11: the scanner reads back what the report writes: on text made of one
    line name==version per dependency (the form of
    compatibility-concerns.log), each name over [a-zA-Z0-9_-] and each
    version over [0-9.], it returns exactly those dependencies, in order,
    duplicates included. *)
Theorem report_lines_scan_back (w : World) (s : state)
    (deps : list (string * string)) :
  Forall (fun d => well_formed_dep d = true) deps ->
  exec w ["pipdeptree"; "-w"] None (fs s) = Process 0 (concerns_text deps) ->
  scan_dependencies w s = (Ok deps, add_call scanner_call s).
Proof.
  intros Hwf Hexec. unfold scan_dependencies, bind, check_output. simpl.
  rewrite Hexec. simpl. unfold ret. do 2 f_equal.
  rewrite (findall_concerns_text deps Hwf), map_map. simpl.
  clear. induction deps as [|[name version] deps IH]; [reflexivity|].
  simpl. now rewrite IH.
Qed.

Lemma report_lines_scan_back_witness :
  fst (scan_dependencies Edge.w_lines (Demo.start Demo.disk []))
  = Ok [("Flask", "1.0.0"); ("six", "1.12.0"); ("Flask", "1.0.0")].
Proof.
  rewrite (report_lines_scan_back Edge.w_lines (Demo.start Demo.disk [])
             [("Flask", "1.0.0"); ("six", "1.12.0"); ("Flask", "1.0.0")]).
  - reflexivity.
  - repeat constructor.
  - vm_compute. reflexivity.
Defined.

(** ** The lines the prompt accepts *)

Lemma all_in_app cls (a b : string) :
  all_in cls (a +:+ b) = all_in cls a && all_in cls b.
Proof.
  induction a as [|c a IH]; [reflexivity|].
  rewrite string_app_cons. unfold all_in in *. simpl.
  now rewrite IH, andb_assoc.
Qed.

Lemma lstrip_split (s : string) :
  exists a, s = a +:+ Text.lstrip s /\ all_in Text.isspace a = true.
Proof.
  induction s as [|c s [a [Hs Ha]]]; [now exists ""|].
  simpl. destruct (Text.isspace c) eqn:Hc.
  - exists (String c a). rewrite string_app_cons, <- Hs. split; [reflexivity|].
    unfold all_in in *. simpl. now rewrite Hc.
  - now exists "".
Qed.

Lemma rstrip_split (s : string) :
  exists b, s = Text.rstrip s +:+ b /\ all_in Text.isspace b = true.
Proof.
  induction s as [|c s [b [Hs Hb]]]; [now exists ""|].
  simpl. destruct (Text.rstrip s) as [|c' r] eqn:Hr.
  - destruct (Text.isspace c) eqn:Hc.
    + exists (String c s). split; [reflexivity|].
      change ("" +:+ b) with b in Hs. subst s.
      unfold all_in in *. simpl. now rewrite Hc.
    + exists b. now rewrite string_app_cons, <- Hs.
  - exists b. now rewrite string_app_cons, <- Hs.
Qed.

Lemma lstrip_spaces (a s : string) :
  all_in Text.isspace a = true -> Text.lstrip (a +:+ s) = Text.lstrip s.
Proof.
  induction a as [|c a IH]; [reflexivity|].
  rewrite string_app_cons.
  unfold all_in. simpl. intros H. apply andb_prop in H as [Hc Ha].
  rewrite Hc. now apply IH.
Qed.

Lemma rstrip_spaces (b : string) :
  all_in Text.isspace b = true -> Text.rstrip b = "".
Proof.
  induction b as [|c b IH]; [reflexivity|].
  unfold all_in. simpl. intros H. apply andb_prop in H as [Hc Hb].
  now rewrite (IH Hb), Hc.
Qed.

Lemma lower_single (s : string) t :
  Text.lower s = String t "" ->
  exists c, s = String c "" /\ Text.lower_char c = t.
Proof.
  destruct s as [|c [|c' s]]; try discriminate.
  simpl. intros H. injection H as <-. now exists c.
Qed.

Lemma lower_char_y c :
  Text.lower_char c = "y"%char <-> c = "y"%char \/ c = "Y"%char.
Proof.
  split.
  - destruct c as [[] [] [] [] [] [] [] []]; vm_compute; intros H;
      try discriminate; auto.
  - intros [->| ->]; reflexivity.
Qed.

Lemma lower_char_n c :
  Text.lower_char c = "n"%char <-> c = "n"%char \/ c = "N"%char.
Proof.
  split.
  - destruct c as [[] [] [] [] [] [] [] []]; vm_compute; intros H;
      try discriminate; auto.
  - intros [->| ->]; reflexivity.
Qed.

(** The lines that normalise to a single letter [t]: one character that
    lowers to [t] and is not white space, between runs of white space. *)
Lemma normalised_single (line : string) t :
  Text.isspace t = false ->
  (forall c, Text.lower_char c = t -> Text.isspace c = false) ->
  (Text.lower (Text.strip line) = String t ""
   <-> exists a c b,
       line = a +:+ String c b
       /\ all_in Text.isspace a = true /\ all_in Text.isspace b = true
       /\ Text.lower_char c = t).
Proof.
  intros Ht Hns. unfold Text.strip. split.
  - intros H. apply lower_single in H as [c [Hstrip Hc]].
    destruct (lstrip_split line) as [a [Hline Ha]].
    destruct (rstrip_split (Text.lstrip line)) as [b [Hl Hb]].
    rewrite Hstrip in Hl. exists a, c, b. repeat split; try assumption.
    rewrite Hline at 1. now rewrite Hl.
  - intros [a [c [b [-> [Ha [Hb Hc]]]]]].
    rewrite (lstrip_spaces a _ Ha). simpl Text.lstrip.
    rewrite (Hns c Hc). simpl Text.rstrip.
    rewrite (rstrip_spaces b Hb), (Hns c Hc). simpl. now rewrite Hc.
Qed.

(** X12: the answer read at the prompt counts as "y" exactly when the line
    is a single y or Y with nothing but white space before and after it,
    and as "n" exactly when it is a single n or N in the same way; every
    other line, the empty one and words such as yes included, is invalid
    input. *)
Theorem accepted_answers (line : string) :
  (Text.lower (Text.strip line) = "y"
   <-> exists a c b,
       line = a +:+ String c b
       /\ all_in Text.isspace a = true /\ all_in Text.isspace b = true
       /\ (c = "y"%char \/ c = "Y"%char))
  /\ (Text.lower (Text.strip line) = "n"
      <-> exists a c b,
          line = a +:+ String c b
          /\ all_in Text.isspace a = true /\ all_in Text.isspace b = true
          /\ (c = "n"%char \/ c = "N"%char)).
Proof.
  split.
  - rewrite (normalised_single line "y" eq_refl).
    + split; intros [a [c [b [H1 [H2 [H3 H4]]]]]]; exists a, c, b;
        repeat split; try assumption; now apply lower_char_y.
    + intros c Hc. apply lower_char_y in Hc as [->| ->]; reflexivity.
  - rewrite (normalised_single line "n" eq_refl).
    + split; intros [a [c [b [H1 [H2 [H3 H4]]]]]]; exists a, c, b;
        repeat split; try assumption; now apply lower_char_n.
    + intros c Hc. apply lower_char_n in Hc as [->| ->]; reflexivity.
Qed.

Lemma accepted_answers_witness :
  exists a c b,
    " Y " = a +:+ String c b
    /\ all_in Text.isspace a = true /\ all_in Text.isspace b = true
    /\ (c = "y"%char \/ c = "Y"%char).
Proof.
  apply (accepted_answers " Y "). reflexivity.
Defined.

(** ** The probe on the interpreter's usual output *)

Lemma search_at_head r (s rest : string) caps :
  Re.match_at r s = Some (rest, caps) -> Re.search r s = Some caps.
Proof. intros H. destruct s; simpl; now rewrite H. Qed.

Lemma match_version_line (a b c rest : string) :
  run_of Re.digit a = true -> run_of Re.digit b = true ->
  run_of Re.digit c = true -> stops Re.digit rest = true ->
  Re.match_at version_pattern
    ("Python " +:+ (a +:+ "." +:+ b +:+ "." +:+ c) +:+ rest)
  = Some (rest, [a +:+ "." +:+ b +:+ "." +:+ c]).
Proof.
  intros Ha Hb Hc Hstop. unfold Re.match_at, version_pattern.
  cbn [Re.rmatch]. rewrite prefix_app, drop_app.
  rewrite !string_app_assoc.
  apply plus_greedy_longest; [exact Ha|reflexivity|].
  cbv beta. cbn [Re.rmatch]. rewrite prefix_app, drop_app.
  apply plus_greedy_longest; [exact Hb|reflexivity|].
  cbv beta. cbn [Re.rmatch]. rewrite prefix_app, drop_app.
  apply plus_greedy_longest; [exact Hc|exact Hstop|].
  do 2 f_equal.
  replace (a +:+ "." +:+ b +:+ "." +:+ c +:+ rest)
    with ((a +:+ "." +:+ b +:+ "." +:+ c) +:+ rest)
    by now rewrite !string_app_assoc.
  now rewrite consumed_app.
Qed.

(** X13: when the interpreter, run in the source directory, exits with
    status zero and its output begins with "Python X.Y.Z", with X, Y and Z
    non-empty runs of digits and Z followed by something that is not a
    digit (the end of the line), the probe returns X.Y.Z. *)
Theorem probe_reads_version_line (w : World) (src : string) (s : state)
    (a b c rest : string) :
  is_directory_at (fs s) src = true ->
  exec w ["python"; "--version"] (Some src) (fs s)
  = Process 0 ("Python " +:+ (a +:+ "." +:+ b +:+ "." +:+ c) +:+ rest) ->
  run_of Re.digit a = true -> run_of Re.digit b = true ->
  run_of Re.digit c = true -> stops Re.digit rest = true ->
  scan_python_version w src s
  = (Ok (a +:+ "." +:+ b +:+ "." +:+ c), add_call (probe_call src) s).
Proof.
  intros Hd Hexec Ha Hb Hc Hstop.
  apply scan_python_version_detected. unfold detected.
  rewrite Hd, Hexec. simpl returncode. simpl output. simpl andb. cbv iota.
  now rewrite (search_at_head _ _ _ _ (match_version_line a b c rest Ha Hb Hc Hstop)).
Qed.

Lemma probe_reads_version_line_witness :
  scan_python_version Edge.w_version_line source_directory
    (Demo.start Demo.disk [])
  = (Ok "3.11.4",
     add_call (probe_call source_directory) (Demo.start Demo.disk [])).
Proof.
  apply (probe_reads_version_line Edge.w_version_line source_directory
           (Demo.start Demo.disk []) "3" "11" "4" nl).
  - vm_compute. reflexivity.
  - vm_compute. reflexivity.
  - reflexivity.
  - reflexivity.
  - reflexivity.
  - reflexivity.
Defined.

(** ** The preview on a source without Python files *)

Lemma py_files_at_not_directory (f : gmap string node) src :
  is_directory_at f src = false -> py_files_at f src = [].
Proof.
  unfold is_directory_at, py_files_at.
  destruct (f !! src) as [[d|es]|]; [reflexivity|discriminate|reflexivity].
Qed.

(** X14: when the source path is missing or is a regular file, the walk
    yields nothing and raises nothing: the preview calls no tool, logs
    nothing, and leaves an empty changes_for_update.log. *)
Theorem dry_run_without_source (w : World) (src : string) (s : state) :
  is_directory_at (fs s) src = false ->
  is_directory_at (fs s) changes_log = false ->
  dry_run_2to3 w src s = (Ok tt, set_fs (<[changes_log := File ""]> (fs s)) s).
Proof.
  intros Hsrc Hlog. rewrite (dry_run_2to3_run w src s Hlog).
  rewrite (py_files_at_not_directory _ _ Hsrc). f_equal.
  apply state_eq; simpl; try reflexivity; now rewrite app_nil_r.
Qed.

Lemma dry_run_without_source_witness :
  dry_run_2to3 Demo.w38 "no_such_directory" (Demo.start Demo.disk [])
  = (Ok tt,
     set_fs (<[changes_log := File ""]> Demo.disk) (Demo.start Demo.disk [])).
Proof.
  apply (dry_run_without_source Demo.w38 "no_such_directory"
           (Demo.start Demo.disk [])).
  - vm_compute. reflexivity.
  - vm_compute. reflexivity.
Defined.

(** ** The paths handed to the rewrite tool *)

Lemma drop_app_add (a b : string) n :
  Text.drop (String.length a + n) (a +:+ b) = Text.drop n b.
Proof.
  induction a as [|c a IH]; [reflexivity|].
  rewrite string_app_cons. exact IH.
Qed.

Lemma endswith_app (a b p : string) :
  Text.endswith b p = true -> Text.endswith (a +:+ b) p = true.
Proof.
  unfold Text.endswith. intros H. apply andb_prop in H as [Hlen Heq].
  apply Nat.leb_le in Hlen. rewrite string_length_app.
  apply andb_true_intro. split; [apply Nat.leb_le; lia|].
  replace (String.length a + String.length b - String.length p)
    with (String.length a + (String.length b - String.length p)) by lia.
  now rewrite drop_app_add.
Qed.

Lemma endswith_join (root name p : string) :
  Text.endswith name p = true -> Text.endswith (Text.join root name) p = true.
Proof.
  intros H. unfold Text.join.
  destruct (Text.startswith name "/"); [exact H|].
  destruct (String.eqb root "" || Text.endswith root "/").
  - now apply endswith_app.
  - apply endswith_app. now apply endswith_app.
Qed.

Lemma paths_in_end_in_py root files :
  Forall (fun p => Text.endswith p ".py" = true) (paths_in root files).
Proof.
  unfold paths_in. induction files as [|name files IH]; [constructor|].
  simpl. destruct (Text.endswith name ".py") eqn:Hn; [|exact IH].
  constructor; [now apply endswith_join|exact IH].
Qed.

Lemma py_files_end_in_py top n :
  Forall (fun p => Text.endswith p ".py" = true) (py_files top n).
Proof.
  rewrite <- triple_paths_walk. unfold triple_paths.
  induction (walk top n) as [|t l IH]; [constructor|].
  simpl. apply Forall_app. split; [apply paths_in_end_in_py|exact IH].
Qed.

(** X15: every path the preview hands to the rewrite tool ends in [.py]:
    joining a directory of the walk with a file name keeps the name's
    ending, whatever the directory is called. *)
Theorem previewed_paths_end_in_py (w : World) (src : string) (s : state) :
  exists paths,
    calls (snd (dry_run_2to3 w src s)) = calls s ++ map dry_run_call paths
    /\ Forall (fun p => Text.endswith p ".py" = true) paths.
Proof.
  exists (py_files_at (fs s) src). split; [apply dry_run_2to3_calls|].
  unfold py_files_at. destruct (fs s !! src); [apply py_files_end_in_py|constructor].
Qed.

(** ** A dependency judged incompatible *)

Section Calls.

Variable w : World.

Lemma calls_bind_kept {A B} (m : M A) (k : A -> M B) :
  (forall s, calls (snd (m s)) = calls s) ->
  (forall a s, calls (snd (k a s)) = calls s) ->
  forall s, calls (snd (bind m k s)) = calls s.
Proof.
  intros Hm Hk s. unfold bind. specialize (Hm s).
  destruct (m s) as [[a|e] s1]; simpl in *; [|exact Hm].
  now rewrite Hk.
Qed.

Lemma calls_for_each_kept {A} (body : A -> M unit) (l : list A) :
  (forall a s, calls (snd (body a s)) = calls s) ->
  forall s, calls (snd (for_each body l s)) = calls s.
Proof.
  intros Hb. induction l as [|a l IH]; intros s; [reflexivity|].
  simpl. apply calls_bind_kept; [apply Hb|]. intros _ s'. apply IH.
Qed.

Lemma calls_open_w p s : calls (snd (open_w p s)) = calls s.
Proof. unfold open_w. destruct (fs s !! p) as [[d|es]|]; reflexivity. Qed.

Lemma calls_file_write p text s : calls (snd (file_write p text s)) = calls s.
Proof. reflexivity. Qed.

(** Reporting the incompatible dependencies calls nothing. *)
Lemma report_calls (bad : list (string * string)) s :
  calls (snd ((logger_info
                 "The following dependencies are not compatible with Python 3.9:" >>
               open_w concerns_log >>
               for_each write_concern bad >>
               logger_info
                 "Please review the compatibility-concerns.log file for more details.") s))
  = calls s.
Proof.
  apply calls_bind_kept; [reflexivity|]. intros _.
  apply calls_bind_kept; [apply calls_open_w|]. intros _.
  apply calls_bind_kept; [|reflexivity].
  apply calls_for_each_kept. intros d s'. unfold write_concern.
  apply calls_bind_kept; [apply calls_file_write|reflexivity].
Qed.

Lemma collect_incompatible_raises acc dep s :
  verdict w dep = None ->
  exists e,
    collect_incompatible w acc dep s
    = (Raise e, add_call (marker_call w dep) s).
Proof.
  unfold collect_incompatible, verdict, bind.
  rewrite is_compatible_run. fold (requirement dep).
  destruct (interpret w (default_environment w) (requirement dep)) as [v|e];
    [discriminate|].
  intros _. now exists e.
Qed.

(** Judging a list of dependencies evaluates them in order, up to and
    including the first whose evaluation raises; what was collected before
    is kept. *)
Lemma collect_calls (l : list (string * string)) : forall acc s,
  exists judged,
    (exists rest, l = judged ++ rest)
    /\ snd (foldM (collect_incompatible w) acc l s)
       = add_calls (map (marker_call w) judged) s
    /\ forall acc',
         fst (foldM (collect_incompatible w) acc l s) = Ok acc' ->
         judged = l /\ exists more, acc' = acc ++ more.
Proof.
  induction l as [|d l IH]; intros acc s.
  - exists []. split; [now exists []|]. split.
    + apply state_eq; simpl; try reflexivity. now rewrite app_nil_r.
    + intros acc' H. injection H as <-. split; [reflexivity|].
      exists []. now rewrite app_nil_r.
  - cbn [foldM].
    destruct (verdict w d) as [b|] eqn:Hd.
    + rewrite (bind_ok _ _ _ _ _ (collect_incompatible_judged w acc d s b Hd)).
      set (acc1 := if incompatible w d then acc ++ [d] else acc).
      destruct (IH acc1 (add_call (marker_call w d) s))
        as [judged [[rest Hl] [Hs Hacc]]].
      exists (d :: judged). split; [|split].
      * exists rest. now rewrite Hl.
      * rewrite Hs. apply state_eq; simpl; try reflexivity.
        now rewrite <- app_assoc.
      * intros acc' H. destruct (Hacc acc' H) as [-> [more ->]].
        split; [reflexivity|]. subst acc1.
        destruct (incompatible w d).
        -- exists ([d] ++ more). now rewrite app_assoc.
        -- now exists more.
    + destruct (collect_incompatible_raises acc d s Hd) as [e He].
      rewrite (bind_raise _ _ _ _ _ He).
      exists [d]. split; [|split].
      * now exists l.
      * reflexivity.
      * intros acc' H. discriminate.
Qed.

(** Once a dependency has been judged incompatible the run goes on judging
    and then reports: neither the preview nor the update is reached. *)
Lemma report_or_preview_incompatible src dst before dep after s :
  Forall (fun d => is_Some (verdict w d)) before ->
  verdict w dep = Some false ->
  exists judged rest,
    before ++ dep :: after = (before ++ dep :: judged) ++ rest
    /\ calls (snd (report_or_preview w src dst (before ++ dep :: after) s))
       = calls s ++ map (marker_call w) (before ++ dep :: judged).
Proof.
  intros Hbefore Hdep.
  unfold report_or_preview.
  assert (Hinc : incompatible w dep = true).
  { unfold incompatible. now rewrite Hdep. }
  set (acc1 := List.filter (incompatible w) before ++ [dep]).
  set (s1 := add_call (marker_call w dep)
               (add_calls (map (marker_call w) before) s)).
  assert (Hfold : foldM (collect_incompatible w) [] (before ++ dep :: after) s
                  = foldM (collect_incompatible w) acc1 after s1).
  { rewrite foldM_app.
    rewrite (bind_ok _ _ _ _ _ (foldM_collect w before [] s Hbefore)).
    simpl app.
    change (foldM (collect_incompatible w) (List.filter (incompatible w) before)
              (dep :: after))
      with (bind (collect_incompatible w (List.filter (incompatible w) before) dep)
              (fun acc' => foldM (collect_incompatible w) acc' after)).
    rewrite (bind_ok _ _ _ _ _
               (collect_incompatible_judged w _ dep _ false Hdep)).
    now rewrite Hinc. }
  destruct (collect_calls after acc1 s1) as [judged [[rest Hl] [Hs Hacc]]].
  exists judged, rest. split.
  { rewrite Hl, <- !app_assoc. simpl. reflexivity. }
  destruct (foldM (collect_incompatible w) acc1 after s1) as [[bad|e] s2] eqn:Hrun;
    simpl in Hs; subst s2.
  - rewrite (bind_ok _ _ _ _ _ Hfold).
    destruct (Hacc bad eq_refl) as [_ [more Hbad]].
    destruct bad as [|d bad].
    { subst acc1. destruct (List.filter (incompatible w) before); discriminate. }
    rewrite report_calls. subst s1. simpl.
    rewrite map_app. simpl. now rewrite <- !app_assoc.
  - rewrite (bind_raise _ _ _ _ _ Hfold).
    subst s1. simpl. rewrite map_app. simpl. now rewrite <- !app_assoc.
Qed.

Lemma filter_incompatible_middle before dep after :
  incompatible w dep = true ->
  List.filter (incompatible w) (before ++ dep :: after) <> [].
Proof.
  intros H. rewrite List.filter_app. simpl. rewrite H.
  destruct (List.filter (incompatible w) before); discriminate.
Qed.

End Calls.

(** C1: in a run that gets to the dependency check (a version is detected
    that does not begin with 3.9, and the scan succeeds) and in which a
    dependency [dep] is judged incompatible, every dependency before it
    having been judged:
    - the calls of the run are the probe, the scan and the marker
      evaluations of the dependencies up to where the judging went,
      [dep] among them, and nothing else, whether or not a later
      evaluation raises: no tree is copied, nothing is previewed and the
      rewrite tool is not run;
    - when the dependencies after [dep] are judged as well and the log
      file can be opened, compatibility-concerns.log holds exactly the
      lines name==version of the incompatible dependencies in scan order,
      every dependency has been evaluated, and the records of the run are
      the detected version, the heading, one line per incompatible
      dependency and the pointer to the log. *)
Theorem incompatible_report (w : World) (src dst : string) (s : state)
    (v : string) (before : list (string * string)) (dep : string * string)
    (after : list (string * string)) :
  detected w src s = Some v ->
  Text.startswith v "3.9" = false ->
  scanned w s = Some (before ++ dep :: after) ->
  Forall (fun d => is_Some (verdict w d)) before ->
  verdict w dep = Some false ->
  let deps := before ++ dep :: after in
  let bad := List.filter (incompatible w) deps in
  let run := main w src dst s in
  (exists judged rest,
     deps = (before ++ dep :: judged) ++ rest
     /\ calls (snd run)
        = calls s ++ probe_call src :: scanner_call
          :: map (marker_call w) (before ++ dep :: judged))
  /\ (Forall (fun d => is_Some (verdict w d)) after ->
      is_directory_at (fs s) concerns_log = false ->
      fst run = Ok tt
      /\ fs (snd run)
         = <[concerns_log :=
               File (Text.concat (map (fun d => requirement d +:+ nl) bad))]>
             (fs s)
      /\ calls (snd run)
         = calls s ++ probe_call src :: scanner_call :: map (marker_call w) deps
      /\ records (snd run)
         = records s
           ++ (INFO, "Detected Python version: " +:+ v)
           :: (INFO, "The following dependencies are not compatible with Python 3.9:")
           :: map (fun d => (INFO, requirement d)) bad
           ++ [(INFO, "Please review the compatibility-concerns.log file for more details.")]).
Proof.
  intros Hv H39 Hscan Hbefore Hdep deps bad run. subst run.
  rewrite (main_detected w src dst s v Hv), H39.
  set (s1 := add_record INFO _ (add_call (probe_call src) s)).
  split.
  - destruct (report_or_preview_incompatible w src dst before dep after
                (add_call scanner_call s1) Hbefore Hdep)
      as [judged [rest [Hl Hcalls]]].
    exists judged, rest. split; [exact Hl|].
    unfold check_dependencies.
    rewrite calls_try_logged by (intros e; apply silent_logger_error).
    rewrite (bind_ok _ _ _ _ _ (scan_dependencies_scanned w s1 _ Hscan)).
    rewrite Hcalls. subst s1. simpl. now rewrite <- !app_assoc.
  - intros Hafter Hlog.
    assert (Hjudged : Forall (fun d => is_Some (verdict w d)) deps).
    { apply Forall_app. split; [exact Hbefore|].
      constructor; [now rewrite Hdep|exact Hafter]. }
    assert (Hbad : List.filter (incompatible w) deps <> []).
    { apply filter_incompatible_middle. unfold incompatible. now rewrite Hdep. }
    rewrite (check_dependencies_report w src dst s1 deps Hscan Hjudged Hbad Hlog).
    subst s1. simpl. repeat split.
    + now rewrite <- !app_assoc.
    + fold bad. rewrite <- !app_assoc. reflexivity.
Qed.

Lemma incompatible_report_witness :
  fs (snd (main Demo.w38_flask source_directory destination_directory
             (Demo.start Demo.disk ["y"])))
  = <[concerns_log := File ("Flask==1.0.0" +:+ nl)]> Demo.disk.
Proof.
  apply (incompatible_report Demo.w38_flask source_directory
           destination_directory (Demo.start Demo.disk ["y"]) "3.8.10"
           [] ("Flask", "1.0.0") [("six", "1.12.0")]).
  - vm_compute. reflexivity.
  - vm_compute. reflexivity.
  - vm_compute. reflexivity.
  - constructor.
  - vm_compute. reflexivity.
  - repeat constructor; eexists; vm_compute; reflexivity.
  - vm_compute. reflexivity.
Defined.

(** C1 as worded fails: Flask is judged incompatible, the evaluation of
    six, which comes after it, raises, and the run ends without
    compatibility-concerns.log: the error is logged instead. *)
Lemma report_lost_when_later_evaluation_raises :
  let s := Demo.start Demo.disk ["y"] in
  let run := main Edge.w_six_raises source_directory destination_directory s in
  scanned Edge.w_six_raises s = Some [("Flask", "1.0.0"); ("six", "1.12.0")]
  /\ incompatible Edge.w_six_raises ("Flask", "1.0.0") = true
  /\ verdict Edge.w_six_raises ("six", "1.12.0") = None
  /\ fst run = Ok tt
  /\ fs (snd run) !! concerns_log = None
  /\ last (records (snd run))
     = Some (ERROR, "Error during dependency scan: bad marker").
Proof. vm_compute. repeat split; reflexivity. Qed.

(** ** What the answer "y" leads to *)

Section Answer.

Variable w : World.

(** The state in which the answer is looked at, in full. *)
Lemma main_at_prompt_state src dst s v deps line rest :
  detected w src s = Some v ->
  Text.startswith v "3.9" = false ->
  scanned w s = Some deps ->
  Forall (fun d => verdict w d = Some true) deps ->
  is_directory_at (fs s) changes_log = false ->
  stdin s = line :: rest ->
  exists s4,
    calls s4
    = calls s ++ probe_call src :: scanner_call :: map (marker_call w) deps
      ++ map dry_run_call (py_files_at (fs s) src)
    /\ fs s4
       = <[changes_log :=
             File (changes_text w (fs s) (py_files_at (fs s) src))]> (fs s)
    /\ records s4
       = records s
         ++ (INFO, "Detected Python version: " +:+ v)
         :: (INFO, "All dependencies are compatible with Python 3.9. Proceeding with the update.")
         :: map (failure_record w (fs s))
              (failed_previews w (fs s) (py_files_at (fs s) src))
    /\ main w src dst s
       = try_except
           (if String.eqb (Text.lower (Text.strip line)) "y" then
              update_to_python_3_9 w src dst >>
              logger_info "Update to Python 3.9 successful."
            else if String.eqb (Text.lower (Text.strip line)) "n" then
              logger_info "Update canceled."
            else logger_error "Invalid input. Update canceled.")
           is_Exception
           (fun e => logger_error ("Error during update: " +:+ str_exn e))
           (answered rest s4).
Proof.
  intros Hv H39 Hscan Hall Hlog Hin.
  rewrite (main_all_compatible w src dst s v deps Hv H39 Hscan Hall).
  pose proof (dry_run_2to3_run w src (at_preview w src v deps s) Hlog) as Hdry.
  set (s4 := set_fs
               (<[changes_log :=
                    File (changes_text w (fs (at_preview w src v deps s))
                            (py_files_at (fs (at_preview w src v deps s)) src))]>
                  (fs (at_preview w src v deps s)))
               (previewed w (py_files_at (fs (at_preview w src v deps s)) src)
                  (at_preview w src v deps s))) in Hdry.
  exists s4. split; [|split; [|split]].
  - subst s4. simpl. now rewrite <- !app_assoc.
  - reflexivity.
  - subst s4. simpl. rewrite <- !app_assoc. reflexivity.
  - unfold preview_and_confirm, try_except.
    rewrite (bind_ok _ _ _ _ _ Hdry).
    now rewrite (confirm_and_update_read w src dst s4 line rest Hin).
Qed.



(** The answer "y" where nothing exists at the destination. *)
Lemma confirmed_fresh src dst s v deps line rest es :
  detected w src s = Some v ->
  Text.startswith v "3.9" = false ->
  scanned w s = Some deps ->
  Forall (fun d => verdict w d = Some true) deps ->
  is_directory_at (fs s) changes_log = false ->
  stdin s = line :: rest ->
  Text.lower (Text.strip line) = "y" ->
  fs s !! src = Some (Dir es) ->
  fs s !! dst = None ->
  dst <> changes_log ->
  let run := main w src dst s in
  let paths := py_files_at (fs s) src in
  fst run = Ok tt
  /\ calls (snd run)
     = (calls s ++ probe_call src :: scanner_call :: map (marker_call w) deps
        ++ map dry_run_call paths)
       ++ [Copytree src dst; write_call dst]
  /\ fs (snd run)
     = <[dst := rewrite w (Dir es)]>
         (<[changes_log := File (changes_text w (fs s) paths)]> (fs s))
  /\ records (snd run)
     = records s
       ++ (INFO, "Detected Python version: " +:+ v)
       :: (INFO, "All dependencies are compatible with Python 3.9. Proceeding with the update.")
       :: map (failure_record w (fs s)) (failed_previews w (fs s) paths)
       ++ [(INFO, "Dry run completed. Proposed changes logged in 'changes_for_update.log'.");
           (INFO, "Update to Python 3.9 successful.")].
Proof.
  intros Hv H39 Hscan Hall Hlog Hin Hy Hsrc Hdst Hdl run paths. subst run.
  destruct (main_at_prompt_state src dst s v deps line rest
              Hv H39 Hscan Hall Hlog Hin) as [s4 [Hcalls [Hfs [Hrec Hrun]]]].
  rewrite Hrun, Hy. simpl String.eqb. cbv iota.
  assert (Hne : src <> changes_log).
  { intros ->. unfold is_directory_at in Hlog. now rewrite Hsrc in Hlog. }
  assert (Hsrc4 : fs (answered rest s4) !! src = Some (Dir es)).
  { change (fs (answered rest s4)) with (fs s4).
    now rewrite Hfs, lookup_insert_ne. }
  assert (Hdst4 : fs (answered rest s4) !! dst = None).
  { change (fs (answered rest s4)) with (fs s4).
    rewrite Hfs, lookup_insert_ne; [exact Hdst|].
    intros Heq. apply Hdl. now symmetry. }
  pose proof (bind_ok _ (fun _ => logger_info "Update to Python 3.9 successful.")
                _ _ _ (update_on_fresh_destination w src dst _ es Hsrc4 Hdst4))
    as Hbody.
  rewrite (try_ok _ _ _ _ _ _ Hbody).
  unfold logger_info. simpl. repeat split.
  - rewrite Hcalls. rewrite <- !app_assoc. simpl. now rewrite <- !app_assoc.
  - now rewrite Hfs.
  - rewrite Hrec. fold paths. rewrite <- ?app_assoc. simpl.
    rewrite <- ?app_assoc. reflexivity.
Qed.

End Answer.



(** X6: [main] called on the two directories of the module where the
    destination does not exist yet (so not through the entry point, which
    stops there), with no preview failing and the answer "y", migrates:
    it returns normally, the destination holds the rewrite of an exact copy
    of the source tree, the source is as it was, changes_for_update.log
    holds the previews, the run ends with the copy followed by the rewrite
    tool in write mode on the destination, and no ERROR record is logged. *)
Theorem confirmed_run_on_fresh_destination (w : World) (s : state)
    (v : string) (deps : list (string * string)) (line : string)
    (rest : list string) (es : list (string * node)) :
  detected w source_directory s = Some v ->
  Text.startswith v "3.9" = false ->
  scanned w s = Some deps ->
  Forall (fun d => verdict w d = Some true) deps ->
  is_directory_at (fs s) changes_log = false ->
  stdin s = line :: rest ->
  Text.lower (Text.strip line) = "y" ->
  fs s !! source_directory = Some (Dir es) ->
  fs s !! destination_directory = None ->
  failed_previews w (fs s) (py_files_at (fs s) source_directory) = [] ->
  let run := main w source_directory destination_directory s in
  let paths := py_files_at (fs s) source_directory in
  fst run = Ok tt
  /\ fs (snd run) !! destination_directory = Some (rewrite w (Dir es))
  /\ fs (snd run) !! source_directory = Some (Dir es)
  /\ fs (snd run) !! changes_log = Some (File (changes_text w (fs s) paths))
  /\ records (snd run)
     = records s
       ++ [(INFO, "Detected Python version: " +:+ v);
           (INFO, "All dependencies are compatible with Python 3.9. Proceeding with the update.");
           (INFO, "Dry run completed. Proposed changes logged in 'changes_for_update.log'.");
           (INFO, "Update to Python 3.9 successful.")]
  /\ calls (snd run)
     = calls s ++ probe_call source_directory :: scanner_call
       :: map (marker_call w) deps
       ++ map dry_run_call paths
       ++ [Copytree source_directory destination_directory;
           write_call destination_directory].
Proof.
  intros Hv H39 Hscan Hall Hlog Hin Hy Hsrc Hdst Hfail run paths. subst run.
  assert (Hdl : destination_directory <> changes_log) by discriminate.
  destruct (confirmed_fresh w source_directory destination_directory s v deps
              line rest es Hv H39 Hscan Hall Hlog Hin Hy Hsrc Hdst Hdl)
    as [R [C [F L]]].
  fold paths in C, F, L.
  split; [exact R|]. split; [|split; [|split; [|split]]].
  - rewrite F. apply lookup_insert_eq.
  - rewrite F. rewrite !lookup_insert_ne by discriminate. exact Hsrc.
  - rewrite F. rewrite lookup_insert_ne by discriminate.
    apply lookup_insert_eq.
  - rewrite L. unfold paths. rewrite Hfail. reflexivity.
  - rewrite C. rewrite <- !app_assoc. simpl. now rewrite <- !app_assoc.
Qed.

Lemma confirmed_run_on_fresh_destination_witness :
  fs (snd (main Edge.w_clean source_directory destination_directory
             (Demo.start Demo.disk_no_destination [" Y "])))
     !! destination_directory
  = Some (Demo.convert Demo.tree).
Proof.
  apply (confirmed_run_on_fresh_destination Edge.w_clean
           (Demo.start Demo.disk_no_destination [" Y "])
           "3.8.10" [("Flask", "1.0.0"); ("six", "1.12.0")] " Y " []).
  - vm_compute. reflexivity.
  - vm_compute. reflexivity.
  - vm_compute. reflexivity.
  - repeat constructor.
  - vm_compute. reflexivity.
  - reflexivity.
  - vm_compute. reflexivity.
  - vm_compute. reflexivity.
  - vm_compute. reflexivity.
  - vm_compute. reflexivity.
Defined.

(** ** The calls of a run, in order *)

Section Trace.

Variable w : World.

Lemma bind_run {A B} (m : M A) (k : A -> M B) s :
  bind m k s
  = match fst (m s) with
    | Ok a => k a (snd (m s))
    | Raise e => (Raise e, snd (m s))
    end.
Proof. unfold bind. destruct (m s) as [[a|e] s1]; reflexivity. Qed.

(** The probe and what [main] logs about it: either nothing was spawned and
    an exception is passed on, or the interpreter was run once. *)
Lemma probe_calls src s :
  let r :=
    try_except
      (current_python_version <-- scan_python_version w src ;;
       logger_info ("Detected Python version: " +:+ current_python_version) >>
       ret (Some current_python_version))
      is_RuntimeError
      (fun e => logger_error (str_exn e) >> ret None) s in
  fs (snd r) = fs s
  /\ ((calls (snd r) = calls s /\ exists e, fst r = Raise e)
      \/ calls (snd r) = calls s ++ [probe_call src]).
Proof.
  unfold scan_python_version, check_output.
  destruct (spawn_error (Some src) (fs s)) as [e|] eqn:Hspawn.
  - assert (He : is_CalledProcessError e = false /\ is_RuntimeError e = false).
    { unfold spawn_error in Hspawn.
      destruct (fs s !! src) as [[d|es]|]; inversion Hspawn; now split. }
    destruct He as [Hc Hr].
    unfold try_except, bind. rewrite Hspawn. simpl. rewrite Hc. simpl.
    rewrite Hr. simpl. split; [reflexivity|]. left. split; [reflexivity|].
    now exists e.
  - unfold try_except, bind, raise, ret, logger_info, logger_error.
    rewrite Hspawn.
    destruct (returncode (exec w ["python"; "--version"] (Some src) (fs s)) =? 0)%N;
      simpl.
    + destruct (Re.search version_pattern
                  (output (exec w ["python"; "--version"] (Some src) (fs s))))
        as [[|v l]|]; simpl; (split; [reflexivity|right; reflexivity]).
    + split; [reflexivity|right; reflexivity].
Qed.

(** Judging, then reporting or previewing. *)
Lemma report_or_preview_calls src dst deps s :
  exists judged paths tail,
    calls (snd (report_or_preview w src dst deps s))
    = calls s ++ map (marker_call w) judged ++ map dry_run_call paths ++ tail
    /\ (exists rest, deps = judged ++ rest)
    /\ (paths = [] \/ paths = py_files_at (fs s) src)
    /\ migration_tail src dst tail.
Proof.
  unfold report_or_preview. rewrite bind_run.
  destruct (collect_calls w deps [] s) as [judged [Hpre [Hs _]]].
  destruct (foldM (collect_incompatible w) [] deps s) as [[bad|e] s1];
    simpl in Hs; subst s1; simpl fst; simpl snd; cbv iota.
  - destruct bad as [|d bad].
    + rewrite (bind_ok _ _ _ _ _ (logger_info_run _ _)).
      destruct (preview_and_confirm_calls w src dst
                  (add_record INFO
                     "All dependencies are compatible with Python 3.9. Proceeding with the update."
                     (add_calls (map (marker_call w) judged) s)))
        as [tail [C T]].
      exists judged, (py_files_at (fs s) src), tail.
      split; [|split; [exact Hpre|split; [now right|exact T]]].
      rewrite C. simpl. now rewrite <- !app_assoc.
    + exists judged, [], []. split; [|split; [exact Hpre|split; now left]].
      rewrite report_calls. simpl. now rewrite app_nil_r.
  - exists judged, [], []. split; [|split; [exact Hpre|split; now left]].
    simpl. now rewrite app_nil_r.
Qed.

Lemma check_dependencies_trace src dst s :
  exists judged paths tail,
    calls (snd (check_dependencies w src dst s))
    = calls s ++ scanner_call
      :: map (marker_call w) judged ++ map dry_run_call paths ++ tail
    /\ (paths = [] \/ paths = py_files_at (fs s) src)
    /\ migration_tail src dst tail.
Proof.
  unfold check_dependencies.
  rewrite calls_try_logged by (intros e; apply silent_logger_error).
  rewrite bind_run.
  pose proof (scan_dependencies_state w s) as Hs.
  destruct (scan_dependencies w s) as [[deps|e] s1]; simpl in Hs; subst s1;
    simpl fst; simpl snd; cbv iota.
  - destruct (report_or_preview_calls src dst deps (add_call scanner_call s))
      as [judged [paths [tail [C [_ [P T]]]]]].
    exists judged, paths, tail. split; [|split; [exact P|exact T]].
    rewrite C. simpl. now rewrite <- !app_assoc.
  - exists [], [], []. split; [reflexivity|split; now left].
Qed.

(** The calls of a run of [main], in order: the probe, the scan, marker
    evaluations, previews of the [.py] files below the source, and at the
    end at most the copy and after it the rewrite in write mode on the
    destination. *)
Lemma main_trace src dst s :
  exists firsts judged paths tail,
    calls (snd (main w src dst s))
    = calls s ++ firsts ++ map (marker_call w) judged
      ++ map dry_run_call paths ++ tail
    /\ (firsts = [] \/ firsts = [probe_call src]
        \/ firsts = [probe_call src; scanner_call])
    /\ (paths = [] \/ paths = py_files_at (fs s) src)
    /\ migration_tail src dst tail.
Proof.
  unfold main. rewrite bind_run.
  destruct (probe_calls src s) as [Hfs Hcalls].
  destruct (try_except _ is_RuntimeError _ s) as [r s1].
  simpl in Hfs, Hcalls. simpl fst. simpl snd.
  destruct Hcalls as [[Hc [e He]]|Hc].
  - simpl in He. subst r. exists [], [], [], [].
    split; [|split; [now left|split; now left]].
    simpl. now rewrite Hc, app_nil_r.
  - assert (Hstop : calls s1
                    = calls s ++ [probe_call src] ++ map (marker_call w) []
                      ++ map dry_run_call [] ++ []) by (now rewrite Hc).
    destruct r as [[v|]|e].
    + destruct (Text.startswith v "3.9").
      * exists [probe_call src], [], [], [].
        split; [exact Hstop|split; [right; now left|split; now left]].
      * destruct (check_dependencies_trace src dst s1)
          as [judged [paths [tail [C [P T]]]]].
        exists [probe_call src; scanner_call], judged, paths, tail.
        split; [|split; [right; now right|split; [|exact T]]].
        -- rewrite C, Hc. now rewrite <- !app_assoc.
        -- now rewrite <- Hfs.
    + exists [probe_call src], [], [], [].
      split; [exact Hstop|split; [right; now left|split; now left]].
    + exists [probe_call src], [], [], [].
      split; [exact Hstop|split; [right; now left|split; now left]].
Qed.

End Trace.

(** ** What a run from the entry point can change *)

Section Kept.

Variable keys : list string.
Variable dst : string.
Hypothesis dst_not_key : ~ In dst keys.

Lemma kept_exists s s' :
  untouched_outside keys s s' ->
  is_Some (fs s !! dst) -> is_Some (fs s' !! dst).
Proof. intros H Hd. now rewrite (H dst dst_not_key). Qed.

Lemma kept_bind {A B} (m : M A) (k : A -> M B) :
  confined keys m ->
  (forall a s, is_Some (fs s !! dst) -> untouched_outside keys s (snd (k a s))) ->
  forall s, is_Some (fs s !! dst) -> untouched_outside keys s (snd (bind m k s)).
Proof.
  intros Hm Hk s Hd. specialize (Hm s). unfold bind.
  destruct (m s) as [[a|e] s1]; simpl in Hm; [|exact Hm].
  eapply untouched_trans; [exact Hm|]. apply Hk.
  eapply kept_exists; eauto.
Qed.

Lemma kept_try {A} (m : M A) handles (h : exn -> M A) :
  (forall s, is_Some (fs s !! dst) -> untouched_outside keys s (snd (m s))) ->
  (forall e, confined keys (h e)) ->
  forall s, is_Some (fs s !! dst) ->
            untouched_outside keys s (snd (try_except m handles h s)).
Proof.
  intros Hm Hh s Hd. specialize (Hm s Hd). unfold try_except.
  destruct (m s) as [[a|e] s1]; simpl in Hm; [exact Hm|].
  destruct (handles e); [|exact Hm].
  eapply untouched_trans; [exact Hm|apply Hh].
Qed.

(** Where something exists at the destination the executor changes
    nothing: the copy is refused. *)
Lemma kept_update w src s :
  is_Some (fs s !! dst) ->
  untouched_outside keys s
    (snd ((update_to_python_3_9 w src dst >>
           logger_info "Update to Python 3.9 successful.") s)).
Proof.
  intros [n Hn]. apply untouched_same.
  unfold update_to_python_3_9, bind, copytree. rewrite Hn.
  destruct (fs s !! src) as [[d|es]|]; reflexivity.
Qed.

Lemma kept_main w src :
  In changes_log keys -> In concerns_log keys ->
  forall s, is_Some (fs s !! dst) ->
            untouched_outside keys s (snd (main w src dst s)).
Proof.
  intros Hc Hn. unfold main. apply kept_bind.
  - apply confined_try.
    + apply confined_bind.
      * unfold scan_python_version. apply confined_try.
        -- apply confined_bind; [apply confined_check_output|].
           intros out. destruct (Re.search version_pattern out) as [[|v l]|];
             first [apply confined_ret | intros s; apply untouched_refl].
        -- intros e s. apply untouched_refl.
      * intros v. apply confined_bind;
          [apply confined_silent, silent_logger_info|].
        intros _. apply confined_ret.
    + intros e. apply confined_bind;
        [apply confined_silent, silent_logger_error|].
      intros _. apply confined_ret.
  - intros [v|]; [|intros s _; apply untouched_refl].
    destruct (Text.startswith v "3.9").
    { intros s _. now apply untouched_same. }
    unfold check_dependencies. apply kept_try;
      [|intros e; apply confined_silent, silent_logger_error].
    apply kept_bind.
    { unfold scan_dependencies. apply confined_bind;
        [apply confined_check_output|]. intros out. apply confined_ret. }
    intros deps. unfold report_or_preview. apply kept_bind.
    { apply confined_foldM. intros acc d. unfold collect_incompatible.
      apply confined_bind.
      - intros s. now apply untouched_same.
      - intros val. destruct (negb (truthy val)); apply confined_ret. }
    intros [|d bad].
    + apply kept_bind; [apply confined_silent, silent_logger_info|].
      intros _. unfold preview_and_confirm. apply kept_try;
        [|intros e; apply confined_silent, silent_logger_error].
      apply kept_bind; [now apply confined_dry_run_2to3|]. intros _.
      unfold confirm_and_update.
      apply kept_bind; [apply confined_silent, silent_logger_info|].
      intros _. apply kept_bind; [apply confined_input|]. intros line.
      destruct (String.eqb (Text.lower (Text.strip line)) "y").
      * intros s. apply kept_update.
      * intros s _.
        destruct (String.eqb (Text.lower (Text.strip line)) "n");
          now apply untouched_same.
    + intros s _. revert s.
      apply confined_bind; [apply confined_silent, silent_logger_info|].
      intros _. apply confined_bind; [now apply confined_open_w|].
      intros _. apply confined_bind.
      * apply confined_for_each. intros x. unfold write_concern.
        apply confined_bind; [now apply confined_file_write|].
        intros _. apply confined_silent, silent_logger_info.
      * intros _. apply confined_silent, silent_logger_info.
Qed.

End Kept.

(** A run from the entry point writes the two logs and nothing else. *)
Lemma program_writes_logs_only w s :
  untouched_outside [changes_log; concerns_log] s (snd (program w s)).
Proof.
  unfold program.
  destruct (fs s !! source_directory) as [n|] eqn:Hsrc.
  - rewrite (path_exists_some _ _ n _ Hsrc). cbv beta.
    change (negb true) with false. cbv iota.
    destruct (fs s !! destination_directory) as [n'|] eqn:Hdst.
    + rewrite (path_exists_some _ _ n' _ Hdst). cbv beta.
      change (negb true) with false. cbv iota.
      set (s2 := State (fs s) (stdin s) (console s) true (records s) (calls s)).
      change ((setup_logging >>
               main w source_directory destination_directory) s)
        with (main w source_directory destination_directory s2).
      apply (untouched_trans _ s s2); [now apply untouched_same|].
      apply (kept_main [changes_log; concerns_log] destination_directory).
      * simpl. intros [H|[H|[]]]; discriminate.
      * now left.
      * right. now left.
      * simpl. rewrite Hdst. eauto.
    + rewrite (path_exists_none _ _ _ Hdst). cbv beta.
      change (negb false) with true. cbv iota.
      now apply untouched_same.
  - rewrite (path_exists_none _ _ _ Hsrc). cbv beta.
    change (negb false) with true. cbv iota.
    now apply untouched_same.
Qed.

(** C10: the source directory tree is not modified.
    - A run of the program from its entry point leaves whatever is at the
      source path exactly as it was, whatever the tools answer and whatever
      is typed.
    - The calls of a run of [main], on any two paths, are in this order:
      the probe and the scan (or a first part of them), marker evaluations,
      the previews, which run the rewrite tool as [2to3 -n] on the [.py]
      files below the source and on nothing else, and at the end at most
      the copy of the source to the destination followed by the rewrite
      tool in write mode on the destination.  So the rewrite tool is asked
      to write only on the destination and only directly after the copy.
    The tools are the ones of the model's scope: a tool that is not asked
    to write changes nothing. *)
Theorem source_tree_unchanged (w : World) (s : state) :
  (forall n, fs s !! source_directory = Some n ->
             fs (snd (program w s)) !! source_directory = Some n)
  /\ forall src dst,
       exists firsts judged paths tail,
         calls (snd (main w src dst s))
         = calls s ++ firsts ++ map (marker_call w) judged
           ++ map dry_run_call paths ++ tail
         /\ (firsts = [] \/ firsts = [probe_call src]
             \/ firsts = [probe_call src; scanner_call])
         /\ (paths = [] \/ paths = py_files_at (fs s) src)
         /\ (tail = [] \/ tail = [Copytree src dst]
             \/ tail = [Copytree src dst; write_call dst]).
Proof.
  split.
  - intros n Hsrc. rewrite <- Hsrc.
    apply (program_writes_logs_only w s).
    simpl. intros [H|[H|[]]]; discriminate.
  - intros src dst. apply main_trace.
Qed.

Lemma source_tree_unchanged_witness :
  fs (snd (program Demo.w38 (Demo.start Demo.disk ["y"]))) !! source_directory
  = Some Demo.tree.
Proof.
  apply (proj1 (source_tree_unchanged Demo.w38 (Demo.start Demo.disk ["y"]))).
  vm_compute. reflexivity.
Defined.

(** X8: whatever the tools answer and whatever is typed, a run of the
    program from its entry point changes no path other than the two log
    files: every other path, the source and the destination among them,
    holds after the run what it held before. *)
Theorem program_changes_only_logs (w : World) (s : state) (p : string) :
  p <> changes_log -> p <> concerns_log ->
  fs (snd (program w s)) !! p = fs s !! p.
Proof.
  intros Hc Hn. apply (program_writes_logs_only w s).
  simpl. intuition congruence.
Qed.

Lemma program_changes_only_logs_witness :
  fs (snd (program Demo.w38 (Demo.start Demo.disk ["y"])))
     !! destination_directory
  = Some (Dir []).
Proof.
  rewrite (program_changes_only_logs Demo.w38 (Demo.start Demo.disk ["y"])
             destination_directory).
  - vm_compute. reflexivity.
  - discriminate.
  - discriminate.
Defined.

(** X1: when the source path is not a directory the interpreter cannot be
    started there, and the exception of the spawn is neither the
    [CalledProcessError] the probe converts nor the [RuntimeError] that
    [main] catches: it leaves [main] with nothing logged and nothing run.
    From the entry point this is the run on a regular file named like the
    source directory: logging is set up and the program ends on the
    exception, with exit status 1. *)
Theorem probe_spawn_error_leaves_main (w : World) (src dst : string)
    (s : state) :
  is_directory_at (fs s) src = false ->
  main w src dst s
  = (Raise (match fs s !! src with
            | Some _ => NotADirectoryError src
            | None => FileNotFoundError src
            end), s)
  /\ (is_Some (fs s !! src) -> is_Some (fs s !! destination_directory) ->
      src = source_directory ->
      program w s
      = (Raise (NotADirectoryError source_directory),
         State (fs s) (stdin s) (console s) true (records s) (calls s))).
Proof.
  intros Hdir.
  assert (Hmain : forall dst' s', fs s' = fs s ->
            main w src dst' s'
            = (Raise (match fs s !! src with
                      | Some _ => NotADirectoryError src
                      | None => FileNotFoundError src
                      end), s')).
  { intros dst' s' Hfs.
    unfold main, scan_python_version, check_output, try_except, bind.
    unfold spawn_error. rewrite Hfs.
    unfold is_directory_at in Hdir.
    destruct (fs s !! src) as [[d|es]|]; [reflexivity|discriminate|reflexivity]. }
  split; [now apply Hmain|].
  intros [n Hsrc] [n' Hdst] ->.
  unfold program.
  rewrite (path_exists_some _ _ n _ Hsrc). cbv beta.
  change (negb true) with false. cbv iota.
  rewrite (path_exists_some _ _ n' _ Hdst). cbv beta.
  change (negb true) with false. cbv iota.
  change ((setup_logging >>
           main w source_directory destination_directory) s)
    with (main w source_directory destination_directory
            (State (fs s) (stdin s) (console s) true (records s) (calls s))).
  rewrite Hmain by reflexivity. now rewrite Hsrc.
Qed.

Lemma probe_spawn_error_leaves_main_witness :
  program Demo.w38 (Demo.start Edge.disk_source_is_file ["y"])
  = (Raise (NotADirectoryError source_directory),
     State Edge.disk_source_is_file ["y"] [] true [] []).
Proof.
  apply (probe_spawn_error_leaves_main Demo.w38 source_directory
           destination_directory (Demo.start Edge.disk_source_is_file ["y"])).
  - vm_compute. reflexivity.
  - vm_compute. eauto.
  - vm_compute. eauto.
  - reflexivity.
Defined.
